(** * SedGen weathering engine: a shallow embedding of
    [sedgen/initialization.py] and the properties of its specification.

    NumPy arrays are lists; integer entries are [Z] (with the 32-bit
    wrap-around of [uint32] written out where the source computes in that
    dtype); Python's indexing and slicing rules (negative indices, clamped
    slice bounds, [IndexError]) are written out; a raised exception is
    [None] in the [option] monad.  Floating-point numbers are kept behind an
    interface ([Float64]) so that no structural result depends on how a
    product or a quotient is rounded; the rationals give an executable
    instance. *)

From Stdlib Require Import ZArith QArith Qround Lia.
From stdpp Require Import base option list sorting strings gmap.

Local Open Scope Z_scope.

(** ** NumPy and Python list primitives *)

Module Np.

(** [np.arange(start, stop)] (step [+1]). *)
Definition arange_up (start stop : Z) : list Z :=
  (λ i : nat, start + Z.of_nat i) <$> seq 0 (Z.to_nat (stop - start)).

(** [np.arange(start, stop, -1)]. *)
Definition arange_down (start stop : Z) : list Z :=
  (λ i : nat, start - Z.of_nat i) <$> seq 0 (Z.to_nat (start - stop)).

(** Python's normalisation of an index: negative indices count from the
    end, anything outside [-len, len) raises [IndexError]. *)
Definition norm_index (len i : Z) : option nat :=
  if (0 <=? i) && (i <? len) then Some (Z.to_nat i)
  else if (- len <=? i) && (i <? 0) then Some (Z.to_nat (i + len))
  else None.

(** [l[i]] *)
Definition get {A} (l : list A) (i : Z) : option A :=
  norm_index (Z.of_nat (length l)) i ≫= λ k, l !! k.

(** [l[i] = x] *)
Definition set {A} (l : list A) (i : Z) (x : A) : option (list A) :=
  (λ k, <[k := x]> l) <$> norm_index (Z.of_nat (length l)) i.

(** A slice bound after Python's clamping (positive step). *)
Definition clamp (len i : Z) : Z :=
  if i <? 0 then Z.max 0 (i + len) else Z.min i len.

(** [l[start:stop]]; [None] stands for an omitted bound. *)
Definition slice {A} (l : list A) (start stop : option Z) : list A :=
  let len := Z.of_nat (length l) in
  let s := from_option (clamp len) 0 start in
  let e := from_option (clamp len) len stop in
  take (Z.to_nat (e - s)) (drop (Z.to_nat s) l).

(** [l[start::-1]]: from index [start] down to index [0]. *)
Definition slice_rev {A} (l : list A) (start : Z) : list A :=
  let len := Z.of_nat (length l) in
  let s := if start <? 0 then Z.max (-1) (start + len)
           else Z.min start (len - 1) in
  reverse (take (Z.to_nat (s + 1)) l).

(** [np.sum] of an integer array. *)
Definition sum (l : list Z) : Z := foldr Z.add 0 l.

(** [np.sum(a == x)] *)
Definition count_eq (x : Z) (a : list Z) : Z :=
  Z.of_nat (length (filter (λ y, y = x) a)).

(** [uint32] arithmetic wraps modulo [2^32]. *)
Definition wrap32 (z : Z) : Z := z `mod` 2 ^ 32.

(** [a[i, j]] on a two-dimensional array. *)
Definition get2 {A} (a : list (list A)) (i j : Z) : option A :=
  get a i ≫= λ row, get row j.

(** [a[i, j, k]] on a three-dimensional array. *)
Definition get3 {A} (a : list (list (list A))) (i j k : Z) : option A :=
  get a i ≫= λ plane, get plane j ≫= λ row, get row k.

(** [a[i, j] = f(a[i, j])]: the in-place update of one matrix entry. *)
Definition update2 {A} (a : list (list A)) (i j : Z) (f : A → A)
  : option (list (list A)) :=
  row ← get a i;
  x ← get row j;
  row' ← set row j (f x);
  set a i row'.

(** [a[mask]] with a boolean mask; the mask has to be as long as [a]
    ([IndexError] otherwise). *)
Definition bool_index {A} (a : list A) (mask : list bool) : option (list A) :=
  if decide (length a = length mask)
  then Some (fst <$> filter (λ xb : A * bool, xb.2 = true) (zip a mask))
  else None.

(** [a[start:] -= b[start:]] on [uint32] arrays of the same length. *)
Definition isub_from (a b : list Z) (start : Z) : list Z :=
  let k := Z.to_nat (clamp (Z.of_nat (length a)) start) in
  take k a ++ zip_with (λ x y, wrap32 (x - y)) (drop k a) (drop k b).

(** [a[idx] += vals] with an index array: NumPy gathers [a[idx]], adds, and
    writes the results back in order, so that of several writes to one
    position the last one stays. *)
Definition fancy_iadd (a : list Z) (idx vals : list Z) : option (list Z) :=
  ks ← mapM (norm_index (Z.of_nat (length a))) idx;
  olds ← mapM (λ k, a !! k) ks;
  let news := zip_with (λ x y, wrap32 (x + y)) olds vals in
  Some (foldl (λ acc kv, <[kv.1 := kv.2]> acc) a (zip ks news)).

(** [[f(i, x) for i, x in enumerate(l)]] where [f] may raise. *)
Definition for_enumerate {A B} (f : Z → A → option B) (l : list A)
  : option (list B) :=
  mapM (λ ix : nat * A, f (Z.of_nat ix.1) ix.2) (imap pair l).

(** [np.sum(rows, axis=0)] for rows of length [m]. *)
Definition sum_axis0 {A} (zero : A) (add : A → A → A) (m : nat)
    (rows : list (list A)) : list A :=
  foldl (zip_with add) (replicate m zero) rows.

(** [(mask).argmax()] on a boolean array: the index of the first [True],
    [0] when there is none; an empty array raises. *)
Definition argmax_bool (mask : list bool) : option Z :=
  match mask with
  | [] => None
  | _ => Some (from_option (λ kb, Z.of_nat kb.1) 0 (list_find (eq true) mask))
  end.

(** [np.roll(a, shift, axis=0)] *)
Definition roll {A} (a : list A) (shift : Z) : list A :=
  match a with
  | [] => []
  | _ => let k := Z.to_nat (shift `mod` Z.of_nat (length a)) in
         drop (length a - k) a ++ take (length a - k) a
  end.

(** An elementwise binary operation on two one-dimensional arrays, with
    NumPy's broadcasting of a length-one operand; other length mismatches
    raise. *)
Definition broadcast2 {A B C} (f : A → B → C) (a : list A) (b : list B)
  : option (list C) :=
  if decide (length a = length b) then Some (zip_with f a b)
  else match a, b with
       | [x], _ => Some (f x <$> b)
       | _, [y] => Some ((λ x, f x y) <$> a)
       | _, _ => None
       end.

(** Broadcasting one level down: [f] combines the entries of the next
    axis and may itself raise on a shape mismatch. *)
Definition broadcast_with {A B C} (f : A → B → option C) (a : list A) (b : list B)
  : option (list C) :=
  if decide (length a = length b) then mapM (λ xy, f xy.1 xy.2) (zip a b)
  else match a, b with
       | [x], _ => mapM (f x) b
       | _, [y] => mapM (λ x, f x y) a
       | _, _ => None
       end.

(** [a * b] and the like on three-dimensional arrays. *)
Definition broadcast3 {A B C} (f : A → B → C)
    (a : list (list (list A))) (b : list (list (list B)))
  : option (list (list (list C))) :=
  broadcast_with (broadcast_with (broadcast2 f)) a b.

(** In-place operations ([a += b]) keep the shape of [a]: only [b] may be
    stretched along an axis of length one. *)
Definition inplace_with {A B} (f : A → B → option A) (a : list A) (b : list B)
  : option (list A) :=
  if decide (length a = length b) then mapM (λ xy, f xy.1 xy.2) (zip a b)
  else match b with
       | [y] => mapM (λ x, f x y) a
       | _ => None
       end.

(** [a += b] on three-dimensional [uint32] arrays. *)
Definition iadd3 (a b : list (list (list Z))) : option (list (list (list Z))) :=
  inplace_with (inplace_with (inplace_with (λ x y, Some (wrap32 (x + y))))) a b.

(** [np.cumsum] with the addition [add]. *)
Fixpoint cumsum_from {A} (add : A → A → A) (acc : A) (a : list A) : list A :=
  match a with
  | [] => []
  | x :: a' => add acc x :: cumsum_from add (add acc x) a'
  end.

Definition cumsum {A} (add : A → A → A) (a : list A) : list A :=
  match a with
  | [] => []
  | x :: a' => x :: cumsum_from add x a'
  end.

(** [np.where(mask)[0]]: the indices of the [True] entries. *)
Definition where_true (mask : list bool) : list Z :=
  (λ ib : nat * bool, Z.of_nat ib.1) <$> filter (λ ib, ib.2 = true) (imap pair mask).

(** [np.array_split(a, indices)] on a one-dimensional array:
    [a[:i0], a[i0:i1], ..., a[ik:]]. *)
Definition array_split {A} (a : list A) (indices : list Z) : list (list A) :=
  let div_points := 0 :: indices ++ [Z.of_nat (length a)] in
  zip_with (λ st en, slice a (Some st) (Some en)) div_points (tail div_points).

(** [np.bincount(a, minlength)]; negative entries raise. *)
Definition bincount (a : list Z) (minlength : Z) : option (list Z) :=
  if forallb (λ v, 0 <=? v) a
  then Some ((λ k, count_eq k a) <$> arange_up 0 (Z.max minlength (foldr Z.max (-1) a + 1)))
  else None.

(** [(a == 0).all()] on one- and two-dimensional arrays. *)
Definition all_zero (a : list Z) : bool := forallb (λ c, c =? 0) a.
Definition all_zero2 (a : list (list Z)) : bool := forallb all_zero a.

(** Fold of a loop body that may raise over the values of a [range]. *)
Fixpoint for_each {S X} (body : S → X → option S) (s : S) (xs : list X)
  : option S :=
  match xs with
  | [] => Some s
  | x :: xs' => body s x ≫= λ s', for_each body s' xs'
  end.

(** [np.delete(a, i)] for a valid non-negative index. *)
Definition delete {A} (a : list A) (i : Z) : list A :=
  take (Z.to_nat i) a ++ drop (S (Z.to_nat i)) a.

(** Python's [try: ... except IndexError: pass] around a block that updates
    [s] statement by statement: the updates made before the exception
    stay. *)
Fixpoint try_each {S} (block : list (S → option S)) (s : S) : S :=
  match block with
  | [] => s
  | statement :: block' =>
      match statement s with
      | Some s' => try_each block' s'
      | None => s
      end
  end.

(** [for _ in range(n)] around a body that may raise. *)
Fixpoint repeat_n {S} (n : nat) (body : S → option S) (s : S) : option S :=
  match n with
  | O => Some s
  | S n' => body s ≫= repeat_n n' body
  end.

(** [np.concatenate(arrays)]; an empty list of arrays raises [ValueError]. *)
Definition concatenate {A} (arrays : list (list A)) : option (list A) :=
  match arrays with
  | [] => None
  | _ => Some (concat arrays)
  end.

(** [a[idx]] with an integer index array. *)
Definition take_at {A} (a : list A) (idx : list Z) : option (list A) :=
  mapM (get a) idx.

(** [np.insert(a, indices, value)]: [value] is put in front of [a[i]] for
    every [i] in [indices] (at the end for [i = len(a)]), as often as [i]
    occurs; an index beyond the array raises.  Inserting from the largest
    index down keeps the positions of the smaller ones.  The indices are
    non-negative here. *)
Definition insert_one {A} (value : A) (i : Z) (a : list A) : list A :=
  take (Z.to_nat i) a ++ value :: drop (Z.to_nat i) a.

Definition insert_at {A} (a : list A) (indices : list Z) (value : A)
  : option (list A) :=
  if forallb (λ i, (0 <=? i) && (i <=? Z.of_nat (length a))) indices
  then Some (foldr (insert_one value) a (merge_sort Z.le indices))
  else None.

(** [np.unique(a, return_index=True, return_counts=True)] as a list of
    [(value, index of the first occurrence, count)], sorted by value. *)
Definition unique (a : list Z) : list (Z * Z * Z) :=
  let values := merge_sort Z.le (remove_dups a) in
  (λ v, (v,
         from_option (λ kb : nat * Z, Z.of_nat kb.1) 0 (list_find (eq v) a),
         count_eq v a)) <$> values.

(** [a[i, j, k] += v] for index arrays without repeated positions. *)
Definition iadd_at3 (a : list (list (list Z))) (idx : list (Z * Z * Z))
    (vals : list Z) : option (list (list (list Z))) :=
  for_each (λ a iv,
      let '((i, j, k), v) := iv in
      plane ← get a i;
      row ← get plane j;
      x ← get row k;
      row' ← set row k (wrap32 (x + v));
      plane' ← set plane j row';
      set a i plane')
    a (zip idx vals).

(** The neighbouring pairs [(a[i], a[i+1])] of an array. *)
Definition pairs {A} (a : list A) : list (A * A) := zip a (tail a).

(** Truth value of a Python integer. *)
Definition truthy (z : Z) : bool := negb (z =? 0).

End Np.

#[global] Opaque Np.wrap32.
Arguments Np.norm_index : simpl never.
Arguments Np.get : simpl never.
Arguments Np.set : simpl never.
Arguments Np.get2 : simpl never.
Arguments Np.get3 : simpl never.
Arguments Np.update2 : simpl never.
Arguments Np.slice : simpl never.
Arguments Np.slice_rev : simpl never.
Arguments Np.roll : simpl never.
Arguments Np.broadcast2 : simpl never.
Arguments Np.fancy_iadd : simpl never.
Arguments Np.all_zero2 : simpl never.
Arguments Np.sum : simpl never.

(** ** Floating-point numbers

    The source computes weights, volumes and residues in [float64].  The
    embedding only needs the operations below and never a law about them. *)

Class Float64 (F : Type) := {
  f0 : F;                      (* 0.0 *)
  fadd : F → F → F;
  fmul : F → F → F;
  fdiv : F → F → F;
  flt : F → F → bool;          (* x < y *)
  fof_int : Z → F;             (* an integer entry promoted to float64 *)
  ffloor : F → F;              (* np.floor *)
  fceil : F → F;               (* np.ceil *)
  fto_uint32 : F → Z;          (* .astype(np.uint32) *)
}.

(** Exact rationals in lowest terms as an executable stand-in. *)
#[export] Instance Q_float : Float64 Q := {|
  f0 := 0%Q;
  fadd x y := Qred (x + y);
  fmul x y := Qred (x * y);
  fdiv x y := Qred (x / y);
  flt x y := negb (Qle_bool y x);
  fof_int := inject_Z;
  ffloor x := inject_Z (Qfloor x);
  fceil x := inject_Z (Qceiling x);
  fto_uint32 x := Np.wrap32 (Qfloor x);
|}.

Definition fsum `{Float64 F} (l : list F) : F := foldl fadd f0 l.

(** ** Interface location weights *)

(** [create_interface_location_prob(a)]; only [a.size] is used. *)
Definition create_interface_location_prob {A} (a : list A) : list Z :=
  let size := Z.of_nat (length a) `div` 2 in
  let corr := Z.of_nat (length a) `mod` 2 in
  let ranger := Np.arange_down size 0 in
  let chance := ranger ++ Np.slice_rev ranger (-2 + corr) in
  chance.

(** The weights as the specification words them:
    [n/2, n/2 - 1, ..., 1, [1 if n odd], 1, 2, ..., n/2]. *)
Definition location_weights_spec (n : Z) : list Z :=
  Np.arange_down (n `div` 2) 0
    ++ (if Z.odd n then [1] else [])
    ++ Np.arange_up 1 (n `div` 2 + 1).

(** The weights the code builds: the ascending half starts at [2] and the
    single [1] is repeated only for odd lengths. *)
Definition location_weights (n : Z) : list Z :=
  Np.arange_down (n `div` 2) 0
    ++ (if Z.odd n then [1] else [])
    ++ Np.arange_up 2 (n `div` 2 + 1).


(** ** The model object

    The attributes of a [SedGen] instance that [weathering] only reads: the
    sizes, the switches and the tables precomputed at initialisation.  The
    tables of the discretisation mixins are inputs here. *)

Record SedGen (F : Type) := {
  minerals : list string;
  n_timesteps : Z;
  n_bins : Z;
  n_standard_cases : Z;
  enable_interface_location_prob : bool;
  enable_multi_pcg_breakage : bool;
  enable_pcg_selection : bool;
  intra_cb_p : list F;
  minerals_N : list Z;
  interface_proportions_normalized : list (list F);
  size_bins_medians : list F;
  (* indexed [n, m] *)
  intra_cb_threshold_bin_matrix : list (list Z);
  (* indexed [m, n], then by position in the extended bin table *)
  search_volume_bins_medians_matrix : list (list (list F));
  (* indexed [m, n], then by bin: the break offsets of that bin *)
  intra_cb_breaks_matrix : list (list (list (list Z)));
  (* indexed [n, m], then by bin: the residue fractions of its breaks *)
  diffs_volumes_matrix : list (list (list (list F)));
  (* indexed [n, m] *)
  negative_volume_thresholds : list (list Z);
  (* indexed [n, m, k] *)
  volume_bins_medians_matrix : list (list (list F));
  volume_change_matrix : list (list (list F));
}.
Arguments minerals {F} _.
Arguments n_timesteps {F} _.
Arguments n_bins {F} _.
Arguments n_standard_cases {F} _.
Arguments enable_interface_location_prob {F} _.
Arguments enable_multi_pcg_breakage {F} _.
Arguments enable_pcg_selection {F} _.
Arguments intra_cb_p {F} _.
Arguments minerals_N {F} _.
Arguments interface_proportions_normalized {F} _.
Arguments size_bins_medians {F} _.
Arguments intra_cb_threshold_bin_matrix {F} _.
Arguments search_volume_bins_medians_matrix {F} _.
Arguments intra_cb_breaks_matrix {F} _.
Arguments diffs_volumes_matrix {F} _.
Arguments negative_volume_thresholds {F} _.
Arguments volume_bins_medians_matrix {F} _.
Arguments volume_change_matrix {F} _.

(** [self.n_minerals = len(self.minerals)] *)
Definition n_minerals {F} (self : SedGen F) : Z := Z.of_nat (length (minerals self)).

(** ** Intra-crystal breakage *)

Section intra_cb.
Context `{Float64 F} (self : SedGen F).

(** Step 1 of [perform_intra_crystal_breakage_2d]: how many mcg of each bin
    are selected, [np.floor(mcg_new * prob[m]).astype(np.uint32)] when
    [floor] holds and [np.ceil(...)] otherwise. *)
Definition mcg_selected (floor : bool) (prob_m : F) (mcg_new : list Z) : list Z :=
  if floor
  then (λ c, fto_uint32 (ffloor (fmul (fof_int c) prob_m))) <$> mcg_new
  else (λ c, fto_uint32 (fceil (fmul (fof_int c) prob_m))) <$> mcg_new.

(** One turn of the loop over [enumerate(mcg_selected[threshold:])]. *)
Definition break_bin (search_bins : list F) (intra_cb_breaks : list (list Z))
    (diffs_volumes : list (list F)) (intra_cb_threshold_bin start_bin_corr : Z)
    (acc : list Z * F) (i : Z) (n_crystals : Z) : option (list Z * F) :=
  let '(mcg_new, residue_new) := acc in
  if n_crystals =? 0 then Some acc else
  breaks_i ← Np.get intra_cb_breaks (i + start_bin_corr);
  diffs_i ← Np.get diffs_volumes (i + start_bin_corr);
  let positive := flt f0 <$> diffs_i in
  intra_cb_breaks_to_use ← Np.bool_index breaks_i positive;
  diffs_volumes_to_use ← Np.bool_index diffs_i positive;
  let size := Z.of_nat (length intra_cb_breaks_to_use) in
  (* [divmod] by zero yields zeros, then [breaker_counts[-1]] raises *)
  let breaker_size := if size =? 0 then 0 else n_crystals `div` size in
  let breaker_remainder := if size =? 0 then 0 else n_crystals `mod` size in
  let breaker_counts := replicate (length intra_cb_breaks_to_use) (Np.wrap32 breaker_size) in
  last_count ← Np.get breaker_counts (-1);
  breaker_counts ← Np.set breaker_counts (-1) (Np.wrap32 (last_count + breaker_remainder));
  let p1 := (λ j, i + intra_cb_threshold_bin - j) <$> Np.arange_up 1 (size + 1) in
  let p2 := zip_with Z.sub p1 intra_cb_breaks_to_use in
  mcg_new ← Np.fancy_iadd mcg_new p1 breaker_counts;
  mcg_new ← Np.fancy_iadd mcg_new p2 breaker_counts;
  search_bin ← Np.get search_bins (i + intra_cb_threshold_bin + n_bins self);
  let residue_add :=
    fsum (zip_with (λ d c, fmul (fmul search_bin d) (fof_int c))
            diffs_volumes_to_use breaker_counts) in
  Some (mcg_new, fadd residue_new residue_add).

Fixpoint break_bins (search_bins : list F) (intra_cb_breaks : list (list Z))
    (diffs_volumes : list (list F)) (intra_cb_threshold_bin start_bin_corr : Z)
    (acc : list Z * F) (i : Z) (selected : list Z) : option (list Z * F) :=
  match selected with
  | [] => Some acc
  | n_crystals :: selected' =>
      acc' ← break_bin search_bins intra_cb_breaks diffs_volumes
               intra_cb_threshold_bin start_bin_corr acc i n_crystals;
      break_bins search_bins intra_cb_breaks diffs_volumes
        intra_cb_threshold_bin start_bin_corr acc' (i + 1) selected'
  end.

(** [perform_intra_crystal_breakage_2d(mcg_old, m, n, intra_cb_threshold_bin,
    floor, start_bin_corr)], returning [(mcg_new, residue_new, residue_count)]. *)
Definition perform_intra_crystal_breakage_2d (mcg_old : list Z) (m n : Z)
    (intra_cb_threshold_bin : Z) (floor : bool) (start_bin_corr : Z)
  : option (list Z * F * Z) :=
  let prob := intra_cb_p self in
  search_bins ← Np.get2 (search_volume_bins_medians_matrix self) m n;
  intra_cb_breaks ← Np.get2 (intra_cb_breaks_matrix self) m n;
  diffs_volumes ← Np.get2 (diffs_volumes_matrix self) n m;
  let mcg_new := mcg_old in
  let residue_count := 0 in
  let residue_new := f0 in
  prob_m ← Np.get prob m;
  let selected := mcg_selected floor prob_m mcg_new in
  let mcg_new := Np.isub_from mcg_new selected intra_cb_threshold_bin in
  '(mcg_new, residue_new) ←
    break_bins search_bins intra_cb_breaks diffs_volumes
      intra_cb_threshold_bin start_bin_corr (mcg_new, residue_new) 0
      (Np.slice selected (Some intra_cb_threshold_bin) None);
  Some (mcg_new, residue_new, residue_count).

(** The value [intra_crystal_breakage_binned] passes for [floor]:
    [alternator % 2], read as a truth value. *)
Definition floor_of_alternator (alternator : Z) : bool :=
  Np.truthy (alternator `mod` 2).

(** The body of the loop over the minerals of one chem-state [n]. *)
Definition break_plane (alternator start_bin_corr : Z) (n m : Z) (m_old : list Z)
  : option (list Z * F * Z) :=
  if forallb (λ c, c =? 0) m_old then Some (m_old, f0, 0)
  else
    threshold ← Np.get2 (intra_cb_threshold_bin_matrix self) n m;
    perform_intra_crystal_breakage_2d m_old m n
      (threshold + start_bin_corr) (floor_of_alternator alternator) start_bin_corr.

(** One chem-state: the new planes and the rows [residue_new[n]] and
    [residue_count_new[n]], which have [n_minerals] entries. *)
Definition break_state (alternator start_bin_corr : Z) (n : Z)
    (planes : list (list Z)) : option (list (list Z) * list F * list Z) :=
  rs ← Np.for_enumerate (break_plane alternator start_bin_corr n) planes;
  let missing := (Z.to_nat (n_minerals self) - length planes)%nat in
  if decide (length planes ≤ Z.to_nat (n_minerals self))%nat
  then Some (fst ∘ fst <$> rs,
             (snd ∘ fst <$> rs) ++ replicate missing f0,
             (snd <$> rs) ++ replicate missing 0)
  else None.

(** [intra_crystal_breakage_binned(alternator, start_bin_corr=5)] applied to
    [self.mcg]; returns [(mcg_new, residue_new, residue_count_new)]. *)
Definition intra_crystal_breakage_binned (mcg : list (list (list Z)))
    (alternator : Z) (start_bin_corr : Z)
  : option (list (list (list Z)) * list F * list Z) :=
  let T := Z.to_nat (n_timesteps self) in
  (* [self.mcg[n]] raises when [mcg] has fewer than [n_timesteps] states *)
  states ← (if decide (T ≤ length mcg)%nat then Some (take T mcg) else None);
  rows ← Np.for_enumerate (break_state alternator start_bin_corr) states;
  (* [np.zeros_like]: states beyond [n_timesteps] are never written *)
  let untouched :=
    (λ planes : list (list Z), (λ p : list Z, replicate (length p) 0) <$> planes)
      <$> drop T mcg in
  let mcg_new := (fst ∘ fst <$> rows) ++ untouched in
  let residue_new :=
    Np.sum_axis0 f0 fadd (Z.to_nat (n_minerals self)) (snd ∘ fst <$> rows) in
  let residue_count_new :=
    Np.sum_axis0 0 (λ x y, Np.wrap32 (x + y)) (Z.to_nat (n_minerals self))
      (snd <$> rows) in
  Some (mcg_new, residue_new, residue_count_new).

End intra_cb.

(** ** Chemical weathering of mono-crystalline grains *)

Section chem_mcg.
Context `{Float64 F} (self : SedGen F).

(** The body of the double loop: the crystals of chem-state [n] and mineral
    [m] below the negative-volume threshold dissolve into [residue_1[m]]. *)
Definition dissolve_negative_bins (acc : list (list (list Z)) * list F)
    (nm : Z * Z) : option (list (list (list Z)) * list F) :=
  let '(mcg_new, residue_1) := acc in
  let '(n, m) := nm in
  threshold ← Np.get2 (negative_volume_thresholds self) n m;
  counts ← Np.get2 mcg_new n m;
  volumes ← Np.get2 (volume_bins_medians_matrix self) (n - 1) m;
  products ← Np.broadcast2 (λ c v, fmul (fof_int c) v)
                (Np.slice counts None (Some threshold))
                (Np.slice volumes None (Some threshold));
  old ← Np.get residue_1 m;
  residue_1 ← Np.set residue_1 m (fadd old (fsum products));
  let k := length (Np.slice counts None (Some threshold)) in
  mcg_new ← Np.update2 mcg_new n m (λ row, replicate k 0 ++ drop k row);
  Some (mcg_new, residue_1).

Definition dissolve_loop (mcg_new : list (list (list Z)))
  : option (list (list (list Z)) * list F) :=
  Np.for_each dissolve_negative_bins
    (mcg_new, replicate (Z.to_nat (n_minerals self)) f0)
    (n ← Np.arange_up 1 (n_timesteps self);
     m ← Np.arange_up 0 (n_minerals self);
     [(n, m)]).

(** [np.sum(np.sum(mcg_new[1:] * self.volume_change_matrix, axis=0), axis=1)] *)
Definition dissolution_residue (mcg_new : list (list (list Z))) : option (list F) :=
  products ← Np.broadcast3 (λ c v, fmul (fof_int c) v)
                (Np.slice mcg_new (Some 1) None) (volume_change_matrix self);
  let over_states :=
    match products with
    | [] => replicate (Z.to_nat (n_minerals self)) []
    | p :: ps => foldl (zip_with (zip_with fadd)) p ps
    end in
  Some (fsum <$> over_states).

(** The fold-back of the wrapped-around chem-state: returns the array and
    whether the warning was issued. *)
Definition fold_back (mcg_new : list (list (list Z)))
  : option (list (list (list Z)) * bool) :=
  slot0 ← Np.get mcg_new 0;
  if negb (Np.all_zero2 slot0) then
    last ← Np.get mcg_new (-1);
    mcg_new ← Np.set mcg_new (-1)
                (zip_with (zip_with (λ x y, Np.wrap32 (x + y))) last slot0);
    mcg_new ← Np.set mcg_new 0 ((λ row : list Z, replicate (length row) 0) <$> slot0);
    Some (mcg_new, true)
  else Some (mcg_new, false).

(** [chemical_weathering_mcg(shift=1)] applied to [self.mcg]; returns
    [(mcg_new, residue_per_mineral)] and whether [warnings.warn] was called. *)
Definition chemical_weathering_mcg (mcg : list (list (list Z))) (shift : Z)
  : option (list (list (list Z)) * list F * bool) :=
  let mcg_new := Np.roll mcg shift in
  '(mcg_new, residue_1) ← dissolve_loop mcg_new;
  residue_2 ← dissolution_residue mcg_new;
  residue_per_mineral ← Np.broadcast2 fadd residue_1 residue_2;
  '(mcg_new, warned) ← fold_back mcg_new;
  Some (mcg_new, residue_per_mineral, warned).

End chem_mcg.

(** ** Inter-crystal breakage *)

(** The four parallel lists that describe the poly-crystalline grains: the
    minerals, the size bins and the chem-states of their crystals, and the
    constant weights of their interfaces. *)
Record Pcgs (F : Type) := {
  pcgs_new : list (list Z);
  crystal_size_array_new : list (list Z);
  interface_constant_prob_new : list (list F);
  pcg_chem_weath_array_new : list (list Z);
}.
Arguments pcgs_new {F} _.
Arguments crystal_size_array_new {F} _.
Arguments interface_constant_prob_new {F} _.
Arguments pcg_chem_weath_array_new {F} _.

Definition no_pcgs {F} : Pcgs F := {|
  pcgs_new := []; crystal_size_array_new := [];
  interface_constant_prob_new := []; pcg_chem_weath_array_new := [];
|}.

(** The four [append] calls that store one fragment. *)
Definition append_pcg {F} (out : Pcgs F) (pcg csize chem : list Z) (prob : list F)
  : Pcgs F := {|
  pcgs_new := pcgs_new out ++ [pcg];
  crystal_size_array_new := crystal_size_array_new out ++ [csize];
  interface_constant_prob_new := interface_constant_prob_new out ++ [prob];
  pcg_chem_weath_array_new := pcg_chem_weath_array_new out ++ [chem];
|}.

(** [zip(pcgs_old, interface_constant_prob_old, crystal_size_array_old,
    pcg_chem_weath_array_old)] *)
Definition zip_pcgs {F} (old : Pcgs F) : list (list Z * list F * list Z * list Z) :=
  zip (zip (zip (pcgs_new old) (interface_constant_prob_new old))
         (crystal_size_array_new old))
      (pcg_chem_weath_array_new old).

Section inter_cb.
Context `{Float64 F} (self : SedGen F).

(** The table [self.standard_prob_loc_cases] built by [__init__]. *)
Definition standard_prob_loc_cases : list (list Z) :=
  (λ x, create_interface_location_prob (Np.arange_up 0 x))
    <$> Np.arange_up 1 (n_standard_cases self + 1).

(** [calculate_normalized_probability(location_prob, prob)] *)
Definition calculate_normalized_probability (location_prob : list Z)
    (prob : list F) : option (list F) :=
  probability ← Np.broadcast2 (λ l p, fmul (fof_int l) p) location_prob prob;
  Some ((λ p, fdiv p (fsum probability)) <$> probability).

(** Modelled from the spec: [gen.normalize] of [sedgen/general.py], which
    is not among the sources.  "If location disabled: normalized probs =
    normalize(C)": every weight divided by the sum of the weights. *)
Definition normalize (prob : list F) : list F :=
  (λ p, fdiv p (fsum prob)) <$> prob.

(** [select_interface(i, probs, c)] *)
Definition select_interface (i : Z) (probs c : list F) : option Z :=
  c_i ← Np.get c i;
  first ← Np.argmax_bool (flt c_i <$> Np.cumsum fadd probs);
  Some (first + 1).

(** [mcg_temp[a][b].append(x)] *)
Definition mcg_temp_append (mcg_temp : list (list (list Z))) (a b x : Z)
  : option (list (list (list Z))) :=
  Np.update2 mcg_temp a b (λ inner_list, inner_list ++ [x]).

(** The state of the loop over the pcgs: the four output lists, [mcg_temp]
    and [self.interface_counts_matrix], which the loop updates in place. *)
Definition inter_cb_acc : Type := Pcgs F * list (list (list Z)) * list (list Z).

(** The body of the loop over [enumerate(zip(...))]; [c] holds the uniform
    draws of [np.random.RandomState(step)]. *)
Definition break_pcg (c : list F) (acc : inter_cb_acc) (i : Z)
    (grain : list Z * list F * list Z * list Z) : option inter_cb_acc :=
  let '(out, mcg_temp, interface_counts_matrix) := acc in
  let '(pcg, prob, csize, chem) := grain in
  let pcg_length := Z.of_nat (length pcg) in
  probability_normalized ←
    (if enable_interface_location_prob self then
       location_prob ←
         (if pcg_length <=? n_standard_cases self
          then Np.get standard_prob_loc_cases (pcg_length - 1)
          else Some (create_interface_location_prob pcg));
       calculate_normalized_probability location_prob prob
     else Some (normalize prob));
  interface ← select_interface i probability_normalized c;
  if enable_multi_pcg_breakage self then
    prob_selected ← Np.get probability_normalized interface;
    let interfaces_selected :=
      Np.where_true (flt prob_selected <$> probability_normalized) in
    let pcg_new := Np.array_split pcg interfaces_selected in
    let csize_new := Np.array_split csize interfaces_selected in
    let chem_new := Np.array_split chem interfaces_selected in
    let prob_new := Np.array_split prob interfaces_selected in
    (* none of the four is appended or counted *)
    Some (out, mcg_temp, interface_counts_matrix)
  else
    (* first new pcg *)
    '(out, mcg_temp) ←
      (if negb (interface =? 1) then
         Some (append_pcg out (Np.slice pcg None (Some interface))
                 (Np.slice csize None (Some interface))
                 (Np.slice chem None (Some interface))
                 (Np.slice prob None (Some (interface - 1))), mcg_temp)
       else
         a ← Np.get chem (interface - 1);
         b ← Np.get pcg (interface - 1);
         x ← Np.get csize (interface - 1);
         mcg_temp ← mcg_temp_append mcg_temp a b x;
         Some (out, mcg_temp));
    (* second new pcg *)
    '(out, mcg_temp) ←
      (if negb (pcg_length - interface =? 1) then
         Some (append_pcg out (Np.slice pcg (Some interface) None)
                 (Np.slice csize (Some interface) None)
                 (Np.slice chem (Some interface) None)
                 (Np.slice prob (Some interface) None), mcg_temp)
       else
         a ← Np.get chem interface;
         b ← Np.get pcg interface;
         x ← Np.get csize interface;
         mcg_temp ← mcg_temp_append mcg_temp a b x;
         Some (out, mcg_temp));
    (* remove the interface from [interface_counts_matrix] *)
    left ← Np.get pcg (interface - 1);
    right ← Np.get pcg interface;
    interface_counts_matrix ←
      Np.update2 interface_counts_matrix left right (λ count, count - 1);
    Some (out, mcg_temp, interface_counts_matrix).

Fixpoint break_pcgs (c : list F) (acc : inter_cb_acc) (i : Z)
    (grains : list (list Z * list F * list Z * list Z)) : option inter_cb_acc :=
  match grains with
  | [] => Some acc
  | grain :: grains' =>
      acc' ← break_pcg c acc i grain;
      break_pcgs c acc' (i + 1) grains'
  end.

(** [mcg_temp_matrix[n, m] = np.bincount(inner_list, minlength=n_bins)] for
    the non-empty lists; the other rows stay zero. *)
Definition mcg_temp_row (inner_list : list Z) : option (list Z) :=
  match inner_list with
  | [] => Some (replicate (Z.to_nat (n_bins self)) 0)
  | _ =>
      counts ← Np.bincount inner_list (n_bins self);
      if decide (length counts = Z.to_nat (n_bins self)) then Some counts
      else match counts with
           | [x] => Some (replicate (Z.to_nat (n_bins self)) x)
           | _ => None
           end
  end.

Definition mcg_temp_matrix (mcg_temp : list (list (list Z)))
  : option (list (list (list Z))) :=
  mapM (mapM mcg_temp_row) mcg_temp.

(** [inter_crystal_breakage(step)] on the grains [old], [self.mcg] and
    [self.interface_counts_matrix]; the random vector [c] stands for
    [np.random.RandomState(step).random(...)].  Returns the new grains,
    [mcg_new] and the matrix as the loop leaves it. *)
Definition inter_crystal_breakage (old : Pcgs F) (mcg : list (list (list Z)))
    (interface_counts_matrix : list (list Z)) (c : list F)
  : option (Pcgs F * list (list (list Z)) * list (list Z)) :=
  let mcg_temp :=
    replicate (Z.to_nat (n_timesteps self))
      (replicate (Z.to_nat (n_minerals self)) []) in
  '(new, mcg_temp, interface_counts_matrix) ←
    break_pcgs c (no_pcgs, mcg_temp, interface_counts_matrix) 0 (zip_pcgs old);
  mcg_temp_matrix ← mcg_temp_matrix mcg_temp;
  mcg_new ← Np.iadd3 mcg mcg_temp_matrix;
  Some (new, mcg_new, interface_counts_matrix).

End inter_cb.

(** ** Helpers of [sedgen/general.py]

    The module [general] ([gen]) is not among the sources; the functions
    the weathering code calls are written down from the specification. *)

Section general.
Context `{Float64 F}.

(** Modelled from the spec: [gen.count_and_convert_interfaces_to_matrix],
    which is missing.  "[interface_counts[a, b]]: M×M matrix; count of
    directed adjacent pairs [(mineral_a, mineral_b)]"; a pair with the
    separator value [M] "produces no valid pair when counting". *)
Definition count_and_convert_interfaces_to_matrix (interface_array : list Z)
    (n_minerals : Z) : list (list Z) :=
  (λ a, (λ b, Z.of_nat (length (filter (λ ab, ab = (a, b)) (Np.pairs interface_array))))
          <$> Np.arange_up 0 n_minerals)
    <$> Np.arange_up 0 n_minerals.

(** Modelled from the spec: [gen.get_interface_size_prob], which is
    missing.  "Size weight [Z]: [size_bins_medians[k_left] +
    size_bins_medians[k_right]] of the two crystals flanking the
    interface"; a pair with the separator [-1] is no interface and weighs
    [0], so that the filter [> 0] of the caller drops it. *)
Definition get_interface_size_prob (size_bins_medians : list F)
    (crystal_size_array : list Z) : option (list F) :=
  mapM (λ k : Z * Z,
          if (k.1 <? 0) || (k.2 <? 0) then Some f0
          else left ← Np.get size_bins_medians k.1;
               right ← Np.get size_bins_medians k.2;
               Some (fadd left right))
    (Np.pairs crystal_size_array).

(** Modelled from the spec: [gen.expand_array], which is missing: the
    matrix of strengths with one more row and column for the separator,
    filled with [0]. *)
Definition expand_array (proportions : list (list F)) : list (list F) :=
  ((λ row, row ++ [f0]) <$> proportions)
    ++ [replicate (S (length proportions)) f0].

(** Modelled from the spec: [gen.get_interface_strengths_prob], which is
    missing.  "Strength weight [S]: per directed pair, equals the
    row-normalized predicted interface proportion at [(a, b)]". *)
Definition get_interface_strengths_prob (proportions : list (list F))
    (interface_array : list Z) : option (list F) :=
  mapM (λ ab : Z * Z, Np.get2 proportions ab.1 ab.2) (Np.pairs interface_array).

(** Modelled from the spec: [gen.weighted_bin_count], which is missing: the
    sum of the weights per mineral label ("[residue_1[m]] from dissolved
    crystals' old-state median volumes"). *)
Definition weighted_bin_count (labels : list Z) (weights : list F)
    (minlength : Z) : option (list F) :=
  if decide (length labels = length weights) then
    if forallb (λ v, 0 <=? v) labels then
      Some ((λ m, fsum (snd <$> filter (λ lw : Z * F, lw.1 = m) (zip labels weights)))
              <$> Np.arange_up 0 (Z.max minlength (foldr Z.max (-1) labels + 1)))
    else None
  else None.

End general.

(** ** Chemical weathering of poly-crystalline grains *)

Section chem_pcg.
Context `{Float64 F} (self : SedGen F).

(** The single crystals that are left of a pcg move to [self.mcg]; the
    counts are grouped by size bin alone, with the chem-state and the
    mineral of the first crystal of each size. *)
Definition promote_single_crystals (mcg : list (list (list Z)))
    (pcg_remaining csize_remaining chem_remaining : list Z)
    (pcg_lengths_remaining pcg_lengths_cumul : list Z)
  : option (list (list (list Z))) :=
  single ← Np.bool_index pcg_lengths_cumul
              ((λ n, bool_decide (n = 1)) <$> pcg_lengths_remaining);
  let positions := (λ c, c - 1) <$> single in
  pcg_to_mcg ← Np.take_at pcg_remaining positions;
  csize_to_mcg ← Np.take_at csize_remaining positions;
  chem_to_mcg ← Np.take_at chem_remaining positions;
  let unq := Np.unique csize_to_mcg in
  let mcg_csize_unq := (λ u, u.1.1) <$> unq in
  let mcg_csize_ind := (λ u, u.1.2) <$> unq in
  let mcg_csize_cnt := (λ u, Np.wrap32 u.2) <$> unq in
  chem_index ← Np.take_at chem_to_mcg mcg_csize_ind;
  pcg_index ← Np.take_at pcg_to_mcg mcg_csize_ind;
  Np.iadd_at3 mcg (zip (zip chem_index pcg_index) mcg_csize_unq) mcg_csize_cnt.

(** [chemical_weathering_pcg(shift=1)] on the grains [old] and [self.mcg]
    (updated in place).  Returns the new grains, [residue_per_mineral],
    [interface_counts_matrix_new] and [self.mcg]. *)
Definition chemical_weathering_pcg (old : Pcgs F) (mcg : list (list (list Z)))
  : option (Pcgs F * list F * list (list Z) * list (list (list Z))) :=
  let pcg_lengths := (λ pcg : list Z, Z.of_nat (length pcg)) <$> pcgs_new old in
  pcg_concat ← Np.concatenate (pcgs_new old);
  csize_concat ← Np.concatenate (crystal_size_array_new old);
  chem_concat_old ← Np.concatenate (pcg_chem_weath_array_new old);
  let chem_concat := (λ s, s + 1) <$> chem_concat_old in
  index_pairs ← Np.broadcast2 pair chem_concat pcg_concat;
  thresholds_concat ←
    mapM (λ nm : Z * Z, Np.get2 (negative_volume_thresholds self) nm.1 nm.2)
      index_pairs;
  remaining_crystals ←
    Np.broadcast2 (λ size threshold, threshold <=? size) csize_concat thresholds_concat;
  let dissolved_crystals := negb <$> remaining_crystals in
  pcg_remaining ← Np.bool_index pcg_concat remaining_crystals;
  csize_remaining ← Np.bool_index csize_concat remaining_crystals;
  chem_remaining ← Np.bool_index chem_concat remaining_crystals;
  chem_old_remaining ← Np.bool_index chem_concat_old remaining_crystals;
  let pcg_filtered :=
    Np.array_split remaining_crystals
      (Np.cumsum Z.add (Np.slice pcg_lengths None (Some (-1)))) in
  let pcg_lengths_remaining :=
    (λ mask : list bool, Z.of_nat (length (filter (eq true) mask))) <$> pcg_filtered in
  let pcg_lengths_cumul := Np.cumsum Z.add pcg_lengths_remaining in
  let is_zero := (λ n, bool_decide (n = 0)) <$> pcg_lengths_remaining in
  let count_0 := Z.of_nat (length (Np.where_true is_zero)) in
  pcg_lengths_cumul_zero_deleted ← Np.bool_index pcg_lengths_cumul (negb <$> is_zero);
  let boundaries := Np.slice pcg_lengths_cumul None (Some (-1)) in
  let pcg_remaining_list := Np.array_split pcg_remaining boundaries in
  let csize_remaining_list := Np.array_split csize_remaining boundaries in
  let chem_remaining_list := Np.array_split chem_remaining boundaries in
  (* mcg accounting *)
  mcg ← promote_single_crystals mcg pcg_remaining csize_remaining chem_remaining
          pcg_lengths_remaining pcg_lengths_cumul;
  (* interface counts *)
  pcg_concat_for_interfaces ← Np.insert_at pcg_remaining boundaries (n_minerals self);
  let interface_counts_matrix_new :=
    count_and_convert_interfaces_to_matrix pcg_concat_for_interfaces (n_minerals self) in
  (* interface probabilities *)
  csize_concat_for_interfaces ← Np.insert_at csize_remaining boundaries (-1);
  interface_size_prob_concat ←
    get_interface_size_prob (size_bins_medians self) csize_concat_for_interfaces;
  let interface_size_prob_concat := filter (λ z, flt f0 z = true) interface_size_prob_concat in
  interface_strength_prob_concat ←
    get_interface_strengths_prob
      (expand_array (interface_proportions_normalized self)) pcg_concat_for_interfaces;
  let interface_strength_prob_concat :=
    filter (λ s, flt f0 s = true) interface_strength_prob_concat in
  prob_remaining ←
    Np.broadcast2 fdiv interface_size_prob_concat interface_strength_prob_concat;
  prob_boundaries ←
    Np.broadcast2 Z.sub (Np.slice pcg_lengths_cumul_zero_deleted None (Some (-1)))
      (Np.arange_up 1 (Z.of_nat (length pcg_remaining_list) - count_0));
  let prob_remaining_list := Np.array_split prob_remaining prob_boundaries in
  (* residue *)
  pcg_dissolved ← Np.bool_index pcg_concat dissolved_crystals;
  csize_dissolved ← Np.bool_index csize_concat dissolved_crystals;
  chem_old_dissolved ← Np.bool_index chem_concat_old dissolved_crystals;
  volumes_old_selected ←
    mapM (λ i : Z * Z * Z, Np.get3 (volume_bins_medians_matrix self) i.1.1 i.1.2 i.2)
      (zip (zip chem_old_dissolved pcg_dissolved) csize_dissolved);
  residue_1 ← weighted_bin_count pcg_dissolved volumes_old_selected (n_minerals self);
  dissolved_volume_selected ←
    mapM (λ i : Z * Z * Z, Np.get3 (volume_change_matrix self) i.1.1 i.1.2 i.2)
      (zip (zip chem_old_remaining pcg_remaining) csize_remaining);
  residue_2 ← weighted_bin_count pcg_remaining dissolved_volume_selected (n_minerals self);
  residue_per_mineral ← Np.broadcast2 fadd residue_1 residue_2;
  (* grains that dissolved or became mcg are removed *)
  let more_than_one (a : list Z) := bool_decide (1 < length a)%nat in
  Some ({| pcgs_new := filter more_than_one pcg_remaining_list;
           crystal_size_array_new := filter more_than_one csize_remaining_list;
           interface_constant_prob_new :=
             filter (λ prob : list F, length prob ≠ 0%nat) prob_remaining_list;
           pcg_chem_weath_array_new := filter more_than_one chem_remaining_list |},
        residue_per_mineral, interface_counts_matrix_new, mcg).

End chem_pcg.

(** ** Correction of the interface array at initialisation *)

Section interface_array_correction.
Context {F : Type} (self : SedGen F).

(** The [try] block: remove the two old interfaces of the crystal at
    [corr_index] and add the one that forms when it is taken out. *)
Definition restitch (interface_array_corr : list Z) (corr_index : Z)
    (interface_frequencies_corr : list (list Z)) : list (list Z) :=
  let at_ i := Np.get interface_array_corr i in
  Np.try_each
    [ (λ freq, a ← at_ (corr_index - 1); b ← at_ corr_index;
               Np.update2 freq a b (λ x, x - 1));
      (λ freq, a ← at_ (corr_index - 1); b ← at_ (corr_index + 1);
               Np.update2 freq a b (λ x, x + 1));
      (λ freq, a ← at_ corr_index; b ← at_ (corr_index + 1);
               Np.update2 freq a b (λ x, x - 1)) ]
    interface_frequencies_corr.

(** One turn of the loop [for i in range(item)]: drop the last crystal of
    mineral [index]. *)
Definition remove_last_crystal (index : Z) (acc : list Z * list (list Z))
  : option (list Z * list (list Z)) :=
  let '(interface_array_corr, interface_frequencies_corr) := acc in
  corr_index ← Np.get (Np.where_true ((λ x, bool_decide (x = index))
                                        <$> interface_array_corr)) (-1);
  let interface_frequencies_corr :=
    restitch interface_array_corr corr_index interface_frequencies_corr in
  Some (Np.delete interface_array_corr corr_index, interface_frequencies_corr).

(** The body of the loop over [enumerate(diff)]. *)
Definition correct_mineral (acc : list Z * list (list Z)) (index item : Z)
  : option (list Z * list (list Z)) :=
  let '(interface_array_corr, interface_frequencies_corr) := acc in
  (* every branch prints [self.minerals[index]] *)
  _ ← Np.get (minerals self) index;
  if 0 <? item then
    Np.repeat_n (Z.to_nat item) (remove_last_crystal index) acc
  else if item <? 0 then
    last ← Np.get interface_array_corr (-1);
    interface_frequencies_corr ←
      Np.update2 interface_frequencies_corr last index (λ x, x + 1);
    let interface_array_corr :=
      interface_array_corr ++ replicate (Z.to_nat (- item)) index in
    interface_frequencies_corr ←
      Np.update2 interface_frequencies_corr index index (λ x, x + (- item - 1));
    Some (interface_array_corr, interface_frequencies_corr)
  else Some acc.

Fixpoint correct_minerals (acc : list Z * list (list Z)) (index : Z)
    (diff : list Z) : option (list Z * list (list Z)) :=
  match diff with
  | [] => Some acc
  | item :: diff' =>
      acc' ← correct_mineral acc index item;
      correct_minerals acc' (index + 1) diff'
  end.

(** [perform_interface_array_correction()] on [self.interface_array] and
    [self.interface_counts_matrix]; the six counts of [range(6)] are
    subtracted from [self.minerals_N] under NumPy's broadcasting rule. *)
Definition perform_interface_array_correction (interface_array : list Z)
    (interface_counts_matrix : list (list Z))
  : option (list Z * list (list Z)) :=
  let interface_array_corr := interface_array in
  let interface_frequencies_corr := interface_counts_matrix in
  diff ← Np.broadcast2 Z.sub
           ((λ x, Np.count_eq x interface_array) <$> Np.arange_up 0 6)
           (minerals_N self);
  correct_minerals (interface_array_corr, interface_frequencies_corr) 0 diff.

(** [check_properties()]: the assertion compares the same six counts with
    [self.minerals_N]. *)
Definition check_properties (interface_array : list Z) : option bool :=
  diff ← Np.broadcast2 Z.sub
           ((λ x, Np.count_eq x interface_array) <$> Np.arange_up 0 6)
           (minerals_N self);
  equal ← Np.broadcast2 (λ d z : Z, bool_decide (d = z)) diff
            (replicate (length (minerals self)) 0);
  Some (forallb id equal).

End interface_array_correction.

(** ** Objects, references and [weathering]

    An instance is a dictionary from attribute names to references into a
    store of objects, as in Python: [copy.copy] duplicates the dictionary and
    not the objects, [self.a = v] rebinds a name, and [self.a[i] = v] or
    [self.a.append(v)] changes the object that every holder of the reference
    sees. *)

Definition loc := nat.

Inductive object (F : Type) :=
  | Int1 (a : list Z)
  | Int2 (a : list (list Z))
  | Int3 (a : list (list (list Z)))
  | Float1 (a : list F)
  | Float2 (a : list (list F))
  | Arrays (a : list (list Z))            (* a Python list of integer arrays *)
  | FloatArrays (a : list (list F))       (* a Python list of float arrays *)
  | Refs (a : list loc)                   (* a Python list of objects *)
  | Instance (model : SedGen F) (dict : gmap string loc).
Arguments Int1 {F} _.
Arguments Int2 {F} _.
Arguments Int3 {F} _.
Arguments Float1 {F} _.
Arguments Float2 {F} _.
Arguments Arrays {F} _.
Arguments FloatArrays {F} _.
Arguments Refs {F} _.
Arguments Instance {F} _ _.

(** What [weathering] hands back: the instance it worked on, or the tuple of
    attribute values of the early exit. *)
Inductive returned :=
  | Returned_self (self : loc)
  | Returned_tuple (items : list loc).

Module Py.
Section store.
Context {F : Type}.

(** Computations on the store that may raise. *)
Definition M (A : Type) : Type := gmap loc (object F) → option (A * gmap loc (object F)).

Definition ret {A} (x : A) : M A := λ h, Some (x, h).

Definition bind {A B} (m : M A) (f : A → M B) : M B :=
  λ h, match m h with
       | Some (x, h') => f x h'
       | None => None
       end.

Definition lift {A} (o : option A) : M A := λ h, (λ x, (x, h)) <$> o.

Definition new (o : object F) : M loc :=
  λ h, let l := fresh (dom h) in Some (l, <[l := o]> h).

Definition load (l : loc) : M (object F) := λ h, (λ o, (o, h)) <$> h !! l.

Definition store (l : loc) (o : object F) : M unit := λ h, Some ((), <[l := o]> h).

(** [self.name] *)
Definition getattr (self : loc) (name : string) : M loc :=
  bind (load self) (λ o,
    match o with
    | Instance _ dict => lift (dict !! name)
    | _ => lift None
    end).

(** [self.name = value] *)
Definition setattr (self : loc) (name : string) (value : loc) : M unit :=
  bind (load self) (λ o,
    match o with
    | Instance model dict => store self (Instance model (<[name := value]> dict))
    | _ => lift None
    end).

(** The attributes that [weathering] only reads. *)
Definition model_of (self : loc) : M (SedGen F) :=
  bind (load self) (λ o,
    match o with
    | Instance model _ => ret model
    | _ => lift None
    end).

(** [copy.copy(self)]: a new instance with the same dictionary. *)
Definition copy_copy (self : loc) : M loc :=
  bind (load self) (λ o,
    match o with
    | Instance model dict => new (Instance model dict)
    | _ => lift None
    end).

Definition as_int1 (o : object F) : option (list Z) :=
  match o with Int1 a => Some a | _ => None end.
Definition as_int2 (o : object F) : option (list (list Z)) :=
  match o with Int2 a => Some a | _ => None end.
Definition as_int3 (o : object F) : option (list (list (list Z))) :=
  match o with Int3 a => Some a | _ => None end.
Definition as_float1 (o : object F) : option (list F) :=
  match o with Float1 a => Some a | _ => None end.
Definition as_float2 (o : object F) : option (list (list F)) :=
  match o with Float2 a => Some a | _ => None end.
Definition as_arrays (o : object F) : option (list (list Z)) :=
  match o with Arrays a => Some a | _ => None end.
Definition as_float_arrays (o : object F) : option (list (list F)) :=
  match o with FloatArrays a => Some a | _ => None end.
Definition as_refs (o : object F) : option (list loc) :=
  match o with Refs a => Some a | _ => None end.

(** The value of [self.name], read through the reference. *)
Definition read {A} (as_ : object F → option A) (self : loc) (name : string) : M A :=
  bind (getattr self name) (λ l, bind (load l) (λ o, lift (as_ o))).

(** [self.name = value] with a newly built object. *)
Definition assign (self : loc) (name : string) (value : object F) : M unit :=
  bind (new value) (setattr self name).

(** [self.name[...] = ...]: the object behind the reference is changed in
    place. *)
Definition update {A} (as_ : object F → option A) (make : A → object F)
    (self : loc) (name : string) (f : A → option A) : M unit :=
  bind (getattr self name) (λ l,
    bind (load l) (λ o,
      bind (lift (as_ o ≫= f)) (λ a, store l (make a)))).

End store.
End Py.

Notation "'do' x ← m ; k" := (Py.bind m (λ x, k))
  (at level 10, x name, m at level 100, k at level 200, only parsing).
Notation "'do' ' p ← m ; k" := (Py.bind m (λ p, k))
  (at level 10, p pattern, m at level 100, k at level 200, only parsing).
Notation "'run' m ; k" := (Py.bind m (λ _, k))
  (at level 10, m at level 100, k at level 200, only parsing).

(** ** Invariants of the grain state *)

(** [sum_ab interface_counts[a, b]] *)
Definition interface_total (interface_counts_matrix : list (list Z)) : Z :=
  Np.sum (Np.sum <$> interface_counts_matrix).

(** [sum_i (len(pcgs[i]) - 1)] *)
Definition pcg_interfaces (pcgs : list (list Z)) : Z :=
  Np.sum ((λ pcg, Z.of_nat (length pcg) - 1) <$> pcgs).

(** The number of crystals recorded in [mcg]. *)
Definition mcg_total (mcg : list (list (list Z))) : Z :=
  Np.sum ((λ planes, Np.sum (Np.sum <$> planes)) <$> mcg).

(** The number of crystals collected in [mcg_temp]. *)
Definition mcg_temp_count (mcg_temp : list (list (list Z))) : Z :=
  interface_total
    ((λ lists : list (list Z), (λ l : list Z, Z.of_nat (length l)) <$> lists)
       <$> mcg_temp).

(** The consecutive pieces of [a] with the lengths [lens]. *)
Fixpoint chunks {A} (lens : list Z) (a : list A) : list (list A) :=
  match lens with
  | [] => []
  | n :: lens' => take (Z.to_nat n) a :: chunks lens' (drop (Z.to_nat n) a)
  end.

(** Pieces put together with [sep] between neighbours. *)
Fixpoint join {A} (sep : A) (pieces : list (list A)) : list A :=
  match pieces with
  | [] => []
  | piece :: pieces' =>
      match pieces' with
      | [] => piece
      | _ => piece ++ sep :: join sep pieces'
      end
  end.

(** The neighbouring pairs of an array in which both entries are minerals
    [0 .. n_minerals - 1]. *)
Definition mineral_pair (n_minerals : Z) (ab : Z * Z) : Prop :=
  (0 <= ab.1 < n_minerals) ∧ (0 <= ab.2 < n_minerals).

Definition inner_pairs (n_minerals : Z) (a : list Z) : Z :=
  Z.of_nat (length (filter (mineral_pair n_minerals) (Np.pairs a))).

(** I4 and I5 for one grain: at least two crystals, one weight per
    interface, one size bin and one chem-state per crystal. *)
Definition grain_ok {F} (grain : list Z * list F * list Z * list Z) : Prop :=
  let '(pcg, prob, csize, chem) := grain in
  (2 ≤ length pcg)%nat ∧ S (length prob) = length pcg
  ∧ length csize = length pcg ∧ length chem = length pcg.

(** The four lists are aligned and every grain satisfies [grain_ok]. *)
Definition pcgs_ok {F} (st : Pcgs F) : Prop :=
  length (interface_constant_prob_new st) = length (pcgs_new st)
  ∧ length (crystal_size_array_new st) = length (pcgs_new st)
  ∧ length (pcg_chem_weath_array_new st) = length (pcgs_new st)
  ∧ Forall grain_ok (zip_pcgs st).

(** What an instance sees under one of its attribute names. *)
Definition attribute_value {F} (h : gmap loc (object F)) (self : loc)
    (name : string) : option (object F) :=
  match h !! self with
  | Some (Instance _ dict) => dict !! name ≫= λ l, h !! l
  | _ => None
  end.

(** The reference an instance holds under an attribute name. *)
Definition attribute_ref {F} (h : gmap loc (object F)) (self : loc)
    (name : string) : option loc :=
  match h !! self with
  | Some (Instance _ dict) => dict !! name
  | _ => None
  end.

(** ** The timestep loop *)

(** What one operation of a timestep leaves behind: the local variable
    [mcg_broken], or the tuple of the early [return]. *)
Inductive operation_outcome :=
  | Operation_done (mcg_broken : list (list (list Z)))
  | Operation_return (items : list loc).

Section weathering.
Context `{Float64 F}.

(** The generator is an input: [random_state seed size] stands for
    [np.random.RandomState(seed).random(size=size)]. *)
Variable random_state : Z → Z → list F.

Local Abbreviation PyM := (@Py.M F).

(** [a[i] = row] on a two-dimensional array; a row of length one is
    stretched. *)
Definition set_row {A} (a : list (list A)) (i : Z) (row : list A)
  : option (list (list A)) :=
  old ← Np.get a i;
  row' ← (if decide (length row = length old) then Some row
          else match row with
               | [x] => Some (replicate (length old) x)
               | _ => None
               end);
  Np.set a i row'.

(** [a[i] = plane] on a three-dimensional array. *)
Definition set_plane (a : list (list (list Z))) (i : Z) (plane : list (list Z))
  : option (list (list (list Z))) :=
  old ← Np.get a i;
  if decide (length plane = length old) then Np.set a i plane else None.

(** [np.sum(mcg, axis=0)] *)
Definition sum_states (mcg : list (list (list Z))) : list (list Z) :=
  match mcg with
  | [] => []
  | plane :: planes => foldl (zip_with (zip_with Z.add)) plane planes
  end.

Definition read_pcgs (self : loc) : PyM (Pcgs F) :=
  do pcgs ← Py.read Py.as_arrays self "pcgs_new";
  do csize ← Py.read Py.as_arrays self "crystal_size_array_new";
  do prob ← Py.read Py.as_float_arrays self "interface_constant_prob_new";
  do chem ← Py.read Py.as_arrays self "pcg_chem_weath_array_new";
  Py.ret {| pcgs_new := pcgs; crystal_size_array_new := csize;
          interface_constant_prob_new := prob; pcg_chem_weath_array_new := chem |}.

Fixpoint getattrs (self : loc) (names : list string) : PyM (list loc) :=
  match names with
  | [] => Py.ret []
  | name :: names' =>
      do l ← Py.getattr self name;
      do ls ← getattrs self names';
      Py.ret (l :: ls)
  end.

(** The tuple of the early [return] inside the ["inter_cb"] branch. *)
Definition early_return (self : loc) : PyM (list loc) :=
  getattrs self
    ["pcgs_new"; "mcg"; "pcg_additions"; "mcg_additions"; "pcg_comp_evolution";
     "pcg_size_evolution"; "interface_counts_matrix"; "crystal_size_array_new";
     "mcg_broken_additions"; "residue_additions"; "residue_count_additions";
     "pcg_chem_residue_additions"; "mcg_chem_residue_additions"; "mass_balance";
     "mcg_evolution"]%string.

(** One pass through the body of [for operation in operations]. *)
Definition weathering_operation (self : loc) (step : Z)
    (mcg_broken : list (list (list Z))) (operation : string)
  : PyM operation_outcome :=
  do model ← Py.model_of self;
  if String.eqb operation "intra_cb" then
    do mcg ← Py.read Py.as_int3 self "mcg";
    do '(mcg_broken, residue, residue_count) ←
      Py.lift (intra_crystal_breakage_binned model mcg step 5);
    run Py.assign self "mcg" (Int3 mcg_broken);
    run Py.update Py.as_float2 Float2 self "residue" (λ a, set_row a step residue);
    run Py.update Py.as_int2 Int2 self "residue_count" (λ a, set_row a step residue_count);
    Py.ret (Operation_done mcg_broken)
  else if String.eqb operation "inter_cb" then
    do old ← read_pcgs self;
    do mcg ← Py.read Py.as_int3 self "mcg";
    do pcg_additions ← Py.read Py.as_int1 self "pcg_additions";
    do size ← Py.lift (Np.get pcg_additions (step - 1));
    let c := random_state step (size + 1) in
    do matrix ← Py.read Py.as_int2 self "interface_counts_matrix";
    do '(new, mcg_new, matrix) ← Py.lift (inter_crystal_breakage model old mcg matrix c);
    (* the loop has decremented the entries of the matrix in place *)
    run Py.update Py.as_int2 Int2 self "interface_counts_matrix" (λ _, Some matrix);
    run Py.assign self "pcgs_new" (Arrays (pcgs_new new));
    run Py.assign self "crystal_size_array_new" (Arrays (crystal_size_array_new new));
    run Py.assign self "interface_constant_prob_new"
      (FloatArrays (interface_constant_prob_new new));
    run Py.assign self "pcg_chem_weath_array_new" (Arrays (pcg_chem_weath_array_new new));
    run Py.assign self "mcg" (Int3 mcg_new);
    match pcgs_new new with
    | [] => do items ← early_return self; Py.ret (Operation_return items)
    | _ => Py.ret (Operation_done mcg_broken)
    end
  else if String.eqb operation "chem_mcg" then
    do mcg ← Py.read Py.as_int3 self "mcg";
    do '(mcg_new, residue, _) ← Py.lift (chemical_weathering_mcg model mcg 1);
    run Py.assign self "mcg" (Int3 mcg_new);
    run Py.assign self "mcg_chem_residue" (Float1 residue);
    Py.ret (Operation_done mcg_broken)
  else if String.eqb operation "chem_pcg" then
    if step =? 0 then Py.ret (Operation_done mcg_broken)
    else
      do old ← read_pcgs self;
      do mcg ← Py.read Py.as_int3 self "mcg";
      do '(new, residue, matrix_new, mcg) ←
        Py.lift (chemical_weathering_pcg model old mcg);
      (* [self.mcg[...] += ...] inside the call *)
      run Py.update Py.as_int3 Int3 self "mcg" (λ _, Some mcg);
      run Py.assign self "pcgs_new" (Arrays (pcgs_new new));
      run Py.assign self "crystal_size_array_new" (Arrays (crystal_size_array_new new));
      run Py.assign self "interface_constant_prob_new"
        (FloatArrays (interface_constant_prob_new new));
      run Py.assign self "pcg_chem_weath_array_new" (Arrays (pcg_chem_weath_array_new new));
      run Py.assign self "pcg_chem_residue" (Float1 residue);
      run Py.assign self "interface_counts_matrix" (Int2 matrix_new);
      Py.ret (Operation_done mcg_broken)
  else
    (* not a valid operation: a message is printed and the loop goes on *)
    Py.ret (Operation_done mcg_broken).

Fixpoint run_operations (self : loc) (step : Z) (mcg_broken : list (list (list Z)))
    (operations : list string) : PyM operation_outcome :=
  match operations with
  | [] => Py.ret (Operation_done mcg_broken)
  | operation :: operations' =>
      do outcome ← weathering_operation self step mcg_broken operation;
      match outcome with
      | Operation_done mcg_broken => run_operations self step mcg_broken operations'
      | Operation_return items => Py.ret (Operation_return items)
      end
  end.

(** "Track model's evolution": the writes into the log arrays at the end of
    a timestep. *)
Definition track_evolution (self : loc) (step : Z)
    (mcg_broken : list (list (list Z))) : PyM unit :=
  run Py.update Py.as_int1 Int1 self "mcg_broken_additions"
    (λ a, Np.set a step (mcg_total mcg_broken));
  do residue ← Py.read Py.as_float2 self "residue";
  do row ← Py.lift (Np.get residue step);
  run Py.update Py.as_float2 Float2 self "residue_additions" (λ a, set_row a step row);
  do residue_count ← Py.read Py.as_int2 self "residue_count";
  run Py.update Py.as_int1 Int1 self "residue_count_additions"
    (λ a, Np.set a step (interface_total residue_count - Np.sum a));
  do pcgs ← Py.read Py.as_arrays self "pcgs_new";
  run Py.update Py.as_int1 Int1 self "pcg_additions"
    (λ a, Np.set a step (Z.of_nat (length pcgs)));
  do mcg ← Py.read Py.as_int3 self "mcg";
  run Py.update Py.as_int1 Int1 self "mcg_additions" (λ a, Np.set a step (mcg_total mcg));
  do pcgs_ref ← Py.getattr self "pcgs_new";
  run Py.update Py.as_refs Refs self "pcg_comp_evolution" (λ a, Some (a ++ [pcgs_ref]));
  do csize_ref ← Py.getattr self "crystal_size_array_new";
  run Py.update Py.as_refs Refs self "pcg_size_evolution" (λ a, Some (a ++ [csize_ref]));
  do pcg_chem_residue ← Py.read Py.as_float1 self "pcg_chem_residue";
  run Py.update Py.as_float2 Float2 self "pcg_chem_residue_additions"
    (λ a, set_row a step pcg_chem_residue);
  do mcg_chem_residue ← Py.read Py.as_float1 self "mcg_chem_residue";
  run Py.update Py.as_float2 Float2 self "mcg_chem_residue_additions"
    (λ a, set_row a step mcg_chem_residue);
  Py.update Py.as_int3 Int3 self "mcg_evolution"
    (λ a, set_plane a step (sum_states mcg)).

Fixpoint run_steps (self : loc) (operations : list string)
    (mcg_broken : list (list (list Z))) (steps : list Z) : PyM returned :=
  match steps with
  | [] => Py.ret (Returned_self self)
  | step :: steps' =>
      do outcome ← run_operations self step mcg_broken operations;
      match outcome with
      | Operation_return items => Py.ret (Returned_tuple items)
      | Operation_done mcg_broken =>
          run track_evolution self step mcg_broken;
          do pcgs ← Py.read Py.as_arrays self "pcgs_new";
          match pcgs with
          | [] => Py.ret (Returned_self self)       (* [break] *)
          | _ => run_steps self operations mcg_broken steps'
          end
      end
  end.

(** [weathering(operations, timesteps, inplace)] with the display and
    timing switches at their defaults ([False]): they print, take times and
    fill [mass_balance] only. *)
Definition weathering (self : loc) (operations : list string)
    (timesteps : option Z) (inplace : bool) : PyM returned :=
  do self ← (if inplace then Py.ret self else Py.copy_copy self);
  do model ← Py.model_of self;
  let timesteps :=
    match timesteps with
    | Some t => if t =? 0 then n_timesteps model else t
    | None => n_timesteps model
    end in
  do mcg ← Py.read Py.as_int3 self "mcg";
  let mcg_broken :=
    (λ planes : list (list Z), (λ row : list Z, replicate (length row) 0) <$> planes)
      <$> mcg in
  run_steps self operations mcg_broken (Np.arange_up 0 timesteps).

End weathering.

(** ** A small concrete model

    One mineral, two chem-states and eight size bins; breakage is allowed
    from bin [6] on (threshold entry [1] plus the correction [5]). *)

Module Demo.

Definition quartz : SedGen Q := {|
  minerals := ["Q"%string];
  n_timesteps := 2;
  n_bins := 8;
  n_standard_cases := 4;
  enable_interface_location_prob := true;
  enable_multi_pcg_breakage := false;
  enable_pcg_selection := false;
  intra_cb_p := [1 # 2]%Q;
  minerals_N := [4];
  interface_proportions_normalized := [[1%Q]];
  size_bins_medians := replicate 8 1%Q;
  intra_cb_threshold_bin_matrix := [[1]; [1]];
  search_volume_bins_medians_matrix := [[replicate 16 1%Q; replicate 16 1%Q]];
  intra_cb_breaks_matrix :=
    [[replicate 5 [] ++ [[1; 2]; [1; 2]]; replicate 5 [] ++ [[1; 2]; [1; 2]]]];
  diffs_volumes_matrix :=
    [[replicate 5 [] ++ [[1 # 10; 1 # 5]; [1 # 10; 1 # 5]]%Q];
     [replicate 5 [] ++ [[1 # 10; 1 # 5]; [1 # 10; 1 # 5]]%Q]];
  negative_volume_thresholds := [[0]; [2]];
  volume_bins_medians_matrix := [[replicate 8 1%Q]; [replicate 8 (1 # 2)%Q]];
  volume_change_matrix := [[replicate 8 (1 # 2)%Q]];
|}.

(** Three crystals in bin [7] at chem-state [0]. *)
Definition mcg : list (list (list Z)) :=
  [[[0; 0; 0; 0; 0; 0; 0; 3]]; [[0; 0; 0; 0; 0; 0; 0; 0]]].

(** The same model with [enable_multi_pcg_breakage=True]. *)
Definition quartz_multi : SedGen Q := {|
  minerals := minerals quartz;
  n_timesteps := n_timesteps quartz;
  n_bins := n_bins quartz;
  n_standard_cases := n_standard_cases quartz;
  enable_interface_location_prob := true;
  enable_multi_pcg_breakage := true;
  enable_pcg_selection := false;
  intra_cb_p := intra_cb_p quartz;
  minerals_N := minerals_N quartz;
  interface_proportions_normalized := interface_proportions_normalized quartz;
  size_bins_medians := size_bins_medians quartz;
  intra_cb_threshold_bin_matrix := intra_cb_threshold_bin_matrix quartz;
  search_volume_bins_medians_matrix := search_volume_bins_medians_matrix quartz;
  intra_cb_breaks_matrix := intra_cb_breaks_matrix quartz;
  diffs_volumes_matrix := diffs_volumes_matrix quartz;
  negative_volume_thresholds := negative_volume_thresholds quartz;
  volume_bins_medians_matrix := volume_bins_medians_matrix quartz;
  volume_change_matrix := volume_change_matrix quartz;
|}.

(** One pcg of four quartz crystals; the middle interface is the weakest
    link. *)
Definition grain : Pcgs Q := {|
  pcgs_new := [[0; 0; 0; 0]];
  crystal_size_array_new := [[7; 6; 5; 7]];
  interface_constant_prob_new := [[1 # 2; 5; 1]%Q];
  pcg_chem_weath_array_new := [[0; 0; 0; 0]];
|}.

(** Its three quartz-quartz interfaces. *)
Definition interface_counts_matrix : list (list Z) := [[3]].

(** Two minerals, three crystals: quartz, plagioclase, quartz. *)
Definition two_minerals : SedGen Q := {|
  minerals := ["Q"; "P"]%string;
  n_timesteps := n_timesteps quartz;
  n_bins := n_bins quartz;
  n_standard_cases := n_standard_cases quartz;
  enable_interface_location_prob := true;
  enable_multi_pcg_breakage := false;
  enable_pcg_selection := false;
  intra_cb_p := [1 # 2; 1 # 2]%Q;
  minerals_N := [2; 1];
  interface_proportions_normalized := [[2 # 3; 1 # 3]; [2 # 3; 1 # 3]]%Q;
  size_bins_medians := size_bins_medians quartz;
  intra_cb_threshold_bin_matrix := [[1; 1]; [1; 1]];
  search_volume_bins_medians_matrix := [];
  intra_cb_breaks_matrix := [];
  diffs_volumes_matrix := [];
  negative_volume_thresholds := [[0; 0]; [2; 2]];
  volume_bins_medians_matrix := [];
  volume_change_matrix := [];
|}.

(** Six minerals; the walk produced one crystal of mineral [0] too many
    and one of mineral [5] too few. *)
Definition six_minerals : SedGen Q := {|
  minerals := ["Q"; "P"; "K"; "B"; "O"; "A"]%string;
  n_timesteps := n_timesteps quartz;
  n_bins := n_bins quartz;
  n_standard_cases := n_standard_cases quartz;
  enable_interface_location_prob := true;
  enable_multi_pcg_breakage := false;
  enable_pcg_selection := false;
  intra_cb_p := replicate 6 (1 # 2)%Q;
  minerals_N := [2; 1; 1; 1; 1; 2];
  interface_proportions_normalized := replicate 6 (replicate 6 (1 # 6)%Q);
  size_bins_medians := size_bins_medians quartz;
  intra_cb_threshold_bin_matrix := [];
  search_volume_bins_medians_matrix := [];
  intra_cb_breaks_matrix := [];
  diffs_volumes_matrix := [];
  negative_volume_thresholds := [];
  volume_bins_medians_matrix := [];
  volume_change_matrix := [];
|}.

Definition six_array : list Z := [0; 1; 0; 2; 3; 0; 4; 5].

Definition six_counts : list (list Z) :=
  [[0; 1; 1; 0; 1; 0];
   [1; 0; 0; 0; 0; 0];
   [0; 0; 0; 1; 0; 0];
   [1; 0; 0; 0; 0; 0];
   [0; 0; 0; 0; 0; 1];
   [0; 0; 0; 0; 0; 0]].

(** An instance of the quartz model in the store: the instance itself at
    reference [0] and one object per attribute.  [residue_count] is filled
    with the sentinel [9], so that a write of the (always zero) counts
    shows. *)
Definition attributes : list (string * object Q) :=
  [("mcg", Int3 mcg);
   ("residue", Float2 [[0]; [0]]%Q);
   ("residue_count", Int2 [[9]; [9]]);
   ("pcgs_new", Arrays (pcgs_new grain));
   ("crystal_size_array_new", Arrays (crystal_size_array_new grain));
   ("interface_constant_prob_new", FloatArrays (interface_constant_prob_new grain));
   ("pcg_chem_weath_array_new", Arrays (pcg_chem_weath_array_new grain));
   ("interface_counts_matrix", Int2 interface_counts_matrix);
   ("mcg_chem_residue", Float1 [0%Q]);
   ("pcg_chem_residue", Float1 [0%Q]);
   ("pcg_additions", Int1 [0; 0]);
   ("mcg_additions", Int1 [0; 0]);
   ("mcg_broken_additions", Int1 [0; 0]);
   ("residue_additions", Float2 [[0]; [0]]%Q);
   ("residue_count_additions", Int1 [0; 0]);
   ("pcg_chem_residue_additions", Float2 [[0]; [0]]%Q);
   ("mcg_chem_residue_additions", Float2 [[0]; [0]]%Q);
   ("mcg_evolution", Int3 [[replicate 8 0]; [replicate 8 0]]);
   ("pcg_comp_evolution", Refs []);
   ("pcg_size_evolution", Refs []);
   ("mass_balance", Float1 [0; 0]%Q)]%string.

Definition dict : gmap string loc :=
  list_to_map (imap (λ i kv, (kv.1, S i)) attributes).

Definition self : loc := 0%nat.

Definition store : gmap loc (object Q) :=
  <[self := Instance quartz dict]>
    (list_to_map (imap (λ i kv, (S i, kv.2)) attributes)).

(** Every draw of the generator is [0.5]. *)
Definition random_state (seed size : Z) : list Q := replicate (Z.to_nat size) (1 # 2)%Q.

Definition operations : list string :=
  ["intra_cb"; "inter_cb"; "chem_mcg"; "chem_pcg"]%string.

(** The store after one timestep of [weathering(inplace=False)]. *)
Definition final_store : gmap loc (object Q) :=
  Eval vm_compute in
    from_option snd ∅ (weathering random_state self operations (Some 1) false store).

End Demo.
(** * Properties *)

Example clp_2 : create_interface_location_prob (Np.arange_up 0 2) = [1].
Proof. reflexivity. Qed.
Example clp_5 : create_interface_location_prob (Np.arange_up 0 5) = [2; 1; 1; 2].
Proof. reflexivity. Qed.
Example clp_6 : create_interface_location_prob (Np.arange_up 0 6) = [3; 2; 1; 2; 3].
Proof. reflexivity. Qed.

Section arange.

Lemma arange_up_nil start stop : stop <= start → Np.arange_up start stop = [].
Proof.
  intros H. unfold Np.arange_up.
  replace (Z.to_nat (stop - start)) with 0%nat by lia. reflexivity.
Qed.

Lemma arange_up_cons start stop :
  start < stop → Np.arange_up start stop = start :: Np.arange_up (start + 1) stop.
Proof.
  intros H. unfold Np.arange_up.
  replace (Z.to_nat (stop - start)) with (S (Z.to_nat (stop - (start + 1)))) by lia.
  cbn [seq fmap list_fmap]. f_equal; [lia|].
  rewrite <- fmap_S_seq, <- list_fmap_compose.
  apply list_fmap_ext. intros _ i _. cbn. lia.
Qed.

Lemma arange_up_length start stop :
  length (Np.arange_up start stop) = Z.to_nat (stop - start).
Proof. unfold Np.arange_up. by rewrite length_fmap, length_seq. Qed.

Lemma arange_down_length start stop :
  length (Np.arange_down start stop) = Z.to_nat (start - stop).
Proof. unfold Np.arange_down. by rewrite length_fmap, length_seq. Qed.

Lemma arange_down_lookup start stop (i : nat) :
  (i < Z.to_nat (start - stop))%nat →
  Np.arange_down start stop !! i = Some (start - Z.of_nat i).
Proof.
  intros H. unfold Np.arange_down.
  rewrite list_lookup_fmap, lookup_seq_lt by done. reflexivity.
Qed.

(** The first [j] entries of the descending ramp, read backwards, are the
    ascending run that ends at [size]. *)
Lemma reverse_take_arange_down size (j : nat) :
  Z.of_nat j <= size →
  reverse (take j (Np.arange_down size 0))
  = Np.arange_up (size - Z.of_nat j + 1) (size + 1).
Proof.
  induction j as [|j IH]; intros Hj.
  - cbn. rewrite arange_up_nil by lia. reflexivity.
  - rewrite (take_S_r _ _ (size - Z.of_nat j)) by (apply arange_down_lookup; lia).
    rewrite reverse_snoc, IH by lia.
    rewrite (arange_up_cons (size - Z.of_nat (S j) + 1)) by lia.
    f_equal; [lia|]. f_equal. lia.
Qed.

End arange.

(** ** Interface location weights (claims C7 and C8) *)

Section location_prob.
Context {A : Type}.
Implicit Types a : list A.

(** What the reversed slice [ranger[-2+corr::-1]] selects. *)
Lemma slice_rev_ranger size corr :
  1 <= size → 0 <= corr <= 1 →
  Np.slice_rev (Np.arange_down size 0) (-2 + corr)
  = Np.arange_up (2 - corr) (size + 1).
Proof.
  intros Hsize Hcorr. unfold Np.slice_rev.
  rewrite arange_down_length.
  replace (-2 + corr <? 0) with true by (symmetry; apply Z.ltb_lt; lia).
  rewrite reverse_take_arange_down by lia. f_equal; lia.
Qed.

Lemma create_interface_location_prob_unfold a :
  2 <= Z.of_nat (length a) →
  create_interface_location_prob a
  = Np.arange_down (Z.of_nat (length a) `div` 2) 0
    ++ Np.arange_up (2 - Z.of_nat (length a) `mod` 2)
         (Z.of_nat (length a) `div` 2 + 1).
Proof.
  intros Hn. unfold create_interface_location_prob.
  rewrite slice_rev_ranger; [done| |].
  - apply (Z.div_le_mono 2 _ 2) in Hn; [|lia]. by rewrite Z.div_same in Hn.
  - pose proof (Z.mod_pos_bound (Z.of_nat (length a)) 2). lia.
Qed.

(** The array is a palindrome whenever the slice leaves out at most the
    last entry of [ranger]. *)
Lemma ramp_palindrome (r : list Z) (t : nat) :
  (length r <= S t)%nat → reverse (r ++ reverse (take t r)) = r ++ reverse (take t r).
Proof.
  intros Hlen.
  assert (Hd : reverse (drop t r) = drop t r).
  { assert (Hd : (length (drop t r) <= 1)%nat) by (rewrite length_drop; lia).
    destruct (drop t r) as [|x [|y d]]; [done..|]. cbn in Hd. lia. }
  replace (r ++ reverse (take t r))
    with ((take t r ++ drop t r) ++ reverse (take t r)) by (by rewrite take_drop).
  rewrite !reverse_app, reverse_involutive, Hd.
  by rewrite (assoc_L (++)).
Qed.

End location_prob.

(** C7 (as stated, refuted): for a pcg of four crystals the code yields the
    three weights [2; 1; 2], whereas the sequence of the specification,
    [n/2, ..., 1, [1 if n odd], 1, 2, ..., n/2], has four entries. *)
Lemma location_weights_spec_refuted :
  create_interface_location_prob (Np.arange_up 0 4) = [2; 1; 2]
  ∧ location_weights_spec 4 = [2; 1; 1; 2]
  ∧ create_interface_location_prob (Np.arange_up 0 4) ≠ location_weights_spec 4.
Proof. repeat split. discriminate. Qed.

(** C7 (amended): for every pcg length [n >= 2] the weight array has [n - 1]
    entries, one per interface position [0..n-2], and equals
    [n/2, n/2 - 1, ..., 1], followed by one more [1] when [n] is odd,
    followed by [2, 3, ..., n/2]. *)
Theorem create_interface_location_prob_weights {A} (a : list A) :
  2 <= Z.of_nat (length a) →
  Z.of_nat (length (create_interface_location_prob a)) = Z.of_nat (length a) - 1
  ∧ create_interface_location_prob a = location_weights (Z.of_nat (length a)).
Proof.
  intros Hn. rewrite create_interface_location_prob_unfold by done.
  set (n := Z.of_nat (length a)) in *.
  pose proof (Z.div_mod n 2 ltac:(lia)) as Hdm.
  pose proof (Z.mod_pos_bound n 2 ltac:(lia)) as Hm.
  split.
  - rewrite length_app, arange_down_length, arange_up_length. lia.
  - unfold location_weights. f_equal. rewrite Zodd_mod.
    destruct (Z.eqb_spec (n `mod` 2) 1) as [->|Hne].
    + cbn [app]. rewrite <- arange_up_cons by lia. reflexivity.
    + replace (n `mod` 2) with 0 by lia. reflexivity.
Qed.

Lemma create_interface_location_prob_weights_witness :
  Z.of_nat (length (create_interface_location_prob (Np.arange_up 0 7))) = 6
  ∧ create_interface_location_prob (Np.arange_up 0 7) = [3; 2; 1; 1; 2; 3].
Proof.
  apply (create_interface_location_prob_weights (Np.arange_up 0 7)).
  vm_compute. discriminate.
Defined.

(** C8: for every pcg length [n >= 2], even or odd, the array returned by
    [create_interface_location_prob] equals its own reverse. *)
Theorem create_interface_location_prob_palindrome {A} (a : list A) :
  2 <= Z.of_nat (length a) →
  reverse (create_interface_location_prob a) = create_interface_location_prob a.
Proof.
  intros Hn. unfold create_interface_location_prob, Np.slice_rev.
  apply ramp_palindrome. rewrite arange_down_length.
  pose proof (Z.mod_pos_bound (Z.of_nat (length a)) 2 ltac:(lia)).
  assert (1 <= Z.of_nat (length a) `div` 2).
  { apply (Z.div_le_mono 2 _ 2) in Hn; [|lia]. by rewrite Z.div_same in Hn. }
  destruct (-2 + Z.of_nat (length a) `mod` 2 <? 0) eqn:E; lia.
Qed.

Lemma create_interface_location_prob_palindrome_witness :
  reverse (create_interface_location_prob (Np.arange_up 0 6))
  = create_interface_location_prob (Np.arange_up 0 6).
Proof.
  apply (create_interface_location_prob_palindrome (Np.arange_up 0 6)).
  vm_compute. discriminate.
Defined.

(** ** Intra-crystal breakage (claims C1 and C9) *)

Section intra_cb_facts.
Context `{Float64 F}.



Lemma perform_intra_crystal_breakage_2d_count (self : SedGen F)
    mcg_old m n thr floor corr mcg_new residue residue_count :
  perform_intra_crystal_breakage_2d self mcg_old m n thr floor corr
    = Some (mcg_new, residue, residue_count) →
  residue_count = 0.
Proof.
  unfold perform_intra_crystal_breakage_2d. intros Hrun.
  repeat (simplify_option_eq || case_match); done.
Qed.

Lemma break_plane_count (self : SedGen F) alt corr n m m_old r :
  break_plane self alt corr n m m_old = Some r → r.2 = 0.
Proof.
  unfold break_plane. destruct r as [[mcg_new residue] residue_count].
  case_match; [by intros [= _ _ <-]|]. intros Hrun. simplify_option_eq.
  by eapply perform_intra_crystal_breakage_2d_count.
Qed.

Lemma for_enumerate_Forall {A B} (f : Z → A → option B) (P : B → Prop) l k :
  Np.for_enumerate f l = Some k →
  (∀ i x y, f i x = Some y → P y) → Forall P k.
Proof.
  unfold Np.for_enumerate. intros Hrun HP.
  apply mapM_Some in Hrun.
  induction Hrun as [|[i x] y ? ? Hy _ IH]; constructor; eauto.
Qed.

Lemma break_state_count (self : SedGen F) alt corr n planes r :
  break_state self alt corr n planes = Some r →
  r.2 = replicate (Z.to_nat (n_minerals self)) 0.
Proof.
  unfold break_state. intros Hrun.
  destruct (Np.for_enumerate _ planes) as [rs|] eqn:Hrs; [|done]. cbn in Hrun.
  case_decide as Hle; [|done]. injection Hrun as <-. cbn.
  assert (Hzero : Forall (λ r : list Z * F * Z, r.2 = 0) rs).
  { eapply for_enumerate_Forall; [done|]. intros. by eapply break_plane_count. }
  assert (Hlen : length rs = length planes).
  { unfold Np.for_enumerate in Hrs. apply length_mapM in Hrs.
    by rewrite length_imap in Hrs. }
  replace (Z.to_nat (n_minerals self))
    with (length rs + (Z.to_nat (n_minerals self) - length planes))%nat at 2 by lia.
  rewrite replicate_add. f_equal.
  clear -Hzero. induction Hzero as [|r rs Hr _ IH]; [done|].
  cbn. by rewrite Hr, IH.
Qed.

Lemma sum_axis0_zero_rows (m : nat) (rows : list (list Z)) :
  Forall (λ row, row = replicate m 0) rows →
  Np.sum_axis0 0 (λ x y, Np.wrap32 (x + y)) m rows = replicate m 0.
Proof.
  assert (Hzip : zip_with (λ x y, Np.wrap32 (x + y)) (replicate m 0) (replicate m 0)
                 = replicate m 0).
  { induction m as [|m IH]; [done|]. cbn. by rewrite IH. }
  unfold Np.sum_axis0. induction 1 as [|row rows -> _ IH]; [done|].
  cbn. by rewrite Hzip.
Qed.

End intra_cb_facts.



(** C9: whatever the model state, the mineral and the alternator, the
    [residue_count] that [intra_crystal_breakage_binned] returns is zero for
    every mineral, also when crystals are broken and residue accrues. *)
Theorem intra_crystal_breakage_binned_residue_count `{Float64 F}
    (self : SedGen F) (mcg : list (list (list Z))) (alternator start_bin_corr : Z)
    mcg_new residue_new residue_count_new :
  intra_crystal_breakage_binned self mcg alternator start_bin_corr
    = Some (mcg_new, residue_new, residue_count_new) →
  residue_count_new = replicate (Z.to_nat (n_minerals self)) 0.
Proof.
  unfold intra_crystal_breakage_binned. intros Hrun.
  destruct (decide _) as [HT|]; [|done]. cbn in Hrun.
  destruct (Np.for_enumerate _ _) as [rows|] eqn:Hrows; [|done].
  injection Hrun as _ _ <-.
  apply sum_axis0_zero_rows, Forall_fmap.
  eapply for_enumerate_Forall; [done|].
  intros i planes r Hr. by eapply break_state_count.
Qed.

Lemma intra_crystal_breakage_binned_residue_count_witness :
  intra_crystal_breakage_binned Demo.quartz Demo.mcg 1 5
    = Some ([[[0; 0; 0; 1; 0; 1; 0; 2]]; [[0; 0; 0; 0; 0; 0; 0; 0]]],
            [(1 # 5)%Q], [0])
  ∧ [0] = replicate (Z.to_nat (n_minerals Demo.quartz)) 0.
Proof.
  split; [reflexivity|].
  apply (intra_crystal_breakage_binned_residue_count Demo.quartz Demo.mcg 1 5
           [[[0; 0; 0; 1; 0; 1; 0; 2]]; [[0; 0; 0; 0; 0; 0; 0; 0]]] [(1 # 5)%Q] [0]).
  reflexivity.
Defined.

(** ** Chemical weathering of mcg (claim C6) *)

Section chem_mcg_facts.
Context `{Float64 F} (self : SedGen F).

Lemma for_each_invariant {S X} (body : S → X → option S) (P : S → Prop) xs :
  ∀ s s', (∀ s x s', x ∈ xs → P s → body s x = Some s' → P s') →
  P s → Np.for_each body s xs = Some s' → P s'.
Proof.
  induction xs as [|x xs IH]; intros s s' Hbody Hs Hrun; cbn in Hrun.
  - by injection Hrun as <-.
  - destruct (body s x) as [s1|] eqn:Hs1; [|done]. cbn in Hrun.
    eapply IH; [| |done].
    + intros. eapply Hbody; [|done..]. by right.
    + eapply Hbody; [|done..]. by left.
Qed.

Lemma elem_of_arange_up x start stop : x ∈ Np.arange_up start stop → start <= x < stop.
Proof.
  unfold Np.arange_up. intros (i & -> & Hi)%list_elem_of_fmap.
  apply elem_of_seq in Hi. lia.
Qed.

Lemma norm_index_pos len i k : 1 <= i → Np.norm_index len i = Some k → (1 <= k)%nat.
Proof.
  unfold Np.norm_index. intros Hi Hk.
  repeat case_match; simplify_eq; lia.
Qed.

Lemma get_0 {A} (a : list A) : Np.get a 0 = a !! 0%nat.
Proof.
  unfold Np.get, Np.norm_index. destruct a as [|x a]; [done|].
  cbn [length]. rewrite Nat2Z.inj_succ.
  replace (0 <? Z.succ (Z.of_nat (length a))) with true
    by (symmetry; apply Z.ltb_lt; lia).
  done.
Qed.

Lemma get_last {A} (a : list A) : Np.get a (-1) = last a.
Proof.
  unfold Np.get, Np.norm_index. destruct (decide (a = [])) as [->|Hne]; [done|].
  assert (1 <= Z.of_nat (length a)) by (destruct a; [done|cbn; lia]).
  replace (0 <=? -1) with false by done. cbn [andb].
  replace (- Z.of_nat (length a) <=? -1) with true by (symmetry; apply Z.leb_le; lia).
  cbn. rewrite last_lookup. f_equal. lia.
Qed.

Lemma set_0 {A} (a : list A) x :
  (1 <= length a)%nat → Np.set a 0 x = Some (<[0%nat := x]> a).
Proof.
  intros Hlen. unfold Np.set, Np.norm_index.
  replace (0 <? Z.of_nat (length a)) with true by (symmetry; apply Z.ltb_lt; lia).
  done.
Qed.

Lemma set_last {A} (a : list A) x :
  (1 <= length a)%nat → Np.set a (-1) x = Some (<[(length a - 1)%nat := x]> a).
Proof.
  intros Hlen. unfold Np.set, Np.norm_index.
  replace (0 <=? -1) with false by done. cbn [andb].
  replace (- Z.of_nat (length a) <=? -1) with true by (symmetry; apply Z.leb_le; lia).
  cbn. do 2 f_equal. lia.
Qed.

(** The dissolution loop starts at chem-state [1]: it leaves state [0] and
    the number of states alone. *)
Lemma dissolve_negative_bins_slot0 mcg residue_1 n m mcg' residue_1' :
  1 <= n →
  dissolve_negative_bins self (mcg, residue_1) (n, m) = Some (mcg', residue_1') →
  mcg' !! 0%nat = mcg !! 0%nat ∧ length mcg' = length mcg.
Proof.
  intros Hn Hrun. unfold dissolve_negative_bins in Hrun.
  repeat (match type of Hrun with
          | context [?o ≫= _] =>
              let E := fresh "E" in destruct o eqn:E; [cbn in Hrun|done]
          end).
  injection Hrun as <- <-.
  unfold Np.update2 in *.
  repeat (match goal with
          | E : context [?o ≫= _] |- _ =>
              let E' := fresh "E" in destruct o eqn:E'; [cbn in E|done]
          end).
  unfold Np.set in *.
  repeat (match goal with
          | E : _ <$> ?o = Some _ |- _ =>
              let E' := fresh "E" in destruct o eqn:E'; [cbn in E|done]
          end).
  simplify_eq.
  match goal with
  | E : Np.norm_index (Z.of_nat (length mcg)) n = Some ?k |- _ =>
      pose proof (norm_index_pos _ _ _ Hn E)
  end.
  rewrite length_insert. split; [|done].
  apply list_lookup_insert_ne. lia.
Qed.

Lemma dissolve_loop_slot0 mcg mcg' residue_1 :
  dissolve_loop self mcg = Some (mcg', residue_1) →
  mcg' !! 0%nat = mcg !! 0%nat ∧ length mcg' = length mcg.
Proof.
  unfold dissolve_loop. intros Hrun.
  eapply (for_each_invariant _
            (λ s, s.1 !! 0%nat = mcg !! 0%nat ∧ length s.1 = length mcg)) in Hrun;
    [done| |done].
  intros [mcg1 r1] [n m] [mcg2 r2] Hnm [Hslot Hlen] Hbody. cbn in *.
  apply list_elem_of_bind in Hnm as (n' & Hm & Hn'%elem_of_arange_up).
  apply list_elem_of_bind in Hm as (m' & Heq & _).
  apply list_elem_of_singleton in Heq as [= -> ->].
  apply dissolve_negative_bins_slot0 in Hbody as [-> ->]; [done|lia].
Qed.

Lemma roll_1 {A} (a : list A) x :
  last a = Some x → Np.roll a 1 = x :: take (length a - 1) a.
Proof.
  intros Hlast. unfold Np.roll. destruct a as [|y a]; [done|].
  set (l := y :: a) in *.
  assert (1 <= length l)%nat by (subst l; cbn; lia).
  destruct (decide (length l = 1%nat)) as [Hone|Hmore].
  - rewrite Hone. cbn. destruct a; [|done]. by injection Hlast as ->.
  - rewrite Z.mod_1_l by lia. change (Z.to_nat 1) with 1%nat. f_equal.
    rewrite last_lookup in Hlast.
    replace (Init.Nat.pred (length l)) with (length l - 1)%nat in Hlast by lia.
    by rewrite (drop_S _ x _ Hlast), drop_ge by lia.
Qed.

End chem_mcg_facts.

(** C6: [chemical_weathering_mcg] first rolls the mcg array by one along
    the chem-state axis, so that the last state [T-1] arrives in state [0];
    the dissolution loop then works on states [1..] only; finally, exactly
    when the rolled-around state [0] is not all zero, its counts are added
    to the last state, state [0] is zeroed and the warning is issued, and
    when it is all zero nothing is folded and nothing is warned. *)
Theorem chemical_weathering_mcg_fold_back `{Float64 F} (self : SedGen F)
    (mcg mcg_new : list (list (list Z))) (residue : list F) (warned : bool) :
  chemical_weathering_mcg self mcg 1 = Some (mcg_new, residue, warned) →
  ∃ slot0 dissolved residue_1,
    last mcg = Some slot0
    ∧ Np.roll mcg 1 = slot0 :: take (length mcg - 1) mcg
    ∧ dissolve_loop self (Np.roll mcg 1) = Some (dissolved, residue_1)
    ∧ Np.get dissolved 0 = Some slot0
    ∧ warned = negb (Np.all_zero2 slot0)
    ∧ if Np.all_zero2 slot0 then mcg_new = dissolved
      else ∃ last_state,
          Np.get dissolved (-1) = Some last_state
          ∧ mcg_new
            = <[0%nat := (λ row : list Z, replicate (length row) 0) <$> slot0]>
                (<[(length dissolved - 1)%nat :=
                     zip_with (zip_with (λ x y, Np.wrap32 (x + y))) last_state slot0]>
                   dissolved).
Proof.
  unfold chemical_weathering_mcg. intros Hrun.
  destruct (dissolve_loop self (Np.roll mcg 1)) as [[dissolved residue_1]|] eqn:Hloop;
    [cbn in Hrun|done].
  destruct (dissolution_residue self dissolved) as [residue_2|]; [cbn in Hrun|done].
  destruct (Np.broadcast2 fadd residue_1 residue_2) as [total|]; [cbn in Hrun|done].
  destruct (fold_back dissolved) as [[folded w]|] eqn:Hfold; [cbn in Hrun|done].
  injection Hrun as -> <- ->.
  apply dissolve_loop_slot0 in Hloop as Hslot. destruct Hslot as [Hslot Hlen].
  unfold fold_back in Hfold.
  destruct (Np.get dissolved 0) as [slot0|] eqn:Hget0; [cbn in Hfold|done].
  assert (Hlast : last mcg = Some slot0).
  { rewrite get_0, Hslot in Hget0. destruct (last mcg) as [x|] eqn:Hl.
    - rewrite (roll_1 _ _ Hl) in Hget0. by injection Hget0 as ->.
    - apply last_None in Hl as ->. done. }
  exists slot0, dissolved, residue_1.
  split; [done|]. split; [by apply roll_1|]. split; [done|]. split; [done|].
  destruct (Np.all_zero2 slot0); cbn in Hfold.
  - by injection Hfold as <- <-.
  - destruct (Np.get dissolved (-1)) as [last_state|] eqn:Hgetl; [cbn in Hfold|done].
    assert (Hpos : (1 <= length dissolved)%nat).
    { rewrite get_0 in Hget0. apply lookup_lt_Some in Hget0. lia. }
    rewrite set_last in Hfold by done. cbn in Hfold.
    rewrite set_0 in Hfold by (by rewrite length_insert).
    cbn in Hfold. injection Hfold as <- <-.
    split; [done|]. by exists last_state.
Qed.

Lemma chemical_weathering_mcg_fold_back_witness :
  ∃ slot0 dissolved residue_1,
    last [[[0; 0; 0; 0; 0; 0; 0; 3]]; [[0; 4; 0; 0; 0; 1; 0; 2]]] = Some slot0
    ∧ Np.roll [[[0; 0; 0; 0; 0; 0; 0; 3]]; [[0; 4; 0; 0; 0; 1; 0; 2]]] 1
      = slot0 :: take (2 - 1) [[[0; 0; 0; 0; 0; 0; 0; 3]]; [[0; 4; 0; 0; 0; 1; 0; 2]]]
    ∧ dissolve_loop Demo.quartz
        (Np.roll [[[0; 0; 0; 0; 0; 0; 0; 3]]; [[0; 4; 0; 0; 0; 1; 0; 2]]] 1)
      = Some (dissolved, residue_1)
    ∧ Np.get dissolved 0 = Some slot0
    ∧ true = negb (Np.all_zero2 slot0)
    ∧ if Np.all_zero2 slot0
      then [[[0; 0; 0; 0; 0; 0; 0; 0]]; [[0; 4; 0; 0; 0; 1; 0; 5]]] = dissolved
      else ∃ last_state,
          Np.get dissolved (-1) = Some last_state
          ∧ [[[0; 0; 0; 0; 0; 0; 0; 0]]; [[0; 4; 0; 0; 0; 1; 0; 5]]]
            = <[0%nat := (λ row : list Z, replicate (length row) 0) <$> slot0]>
                (<[(length dissolved - 1)%nat :=
                     zip_with (zip_with (λ x y, Np.wrap32 (x + y))) last_state slot0]>
                   dissolved).
Proof.
  apply (chemical_weathering_mcg_fold_back Demo.quartz
           [[[0; 0; 0; 0; 0; 0; 0; 3]]; [[0; 4; 0; 0; 0; 1; 0; 2]]]
           [[[0; 0; 0; 0; 0; 0; 0; 0]]; [[0; 4; 0; 0; 0; 1; 0; 5]]]
           [(3 # 2)%Q] true).
  reflexivity.
Defined.

(** ** Inter-crystal breakage with several breaks per pcg (claim C2) *)

Section multi_breakage.
Context `{Float64 F} (self : SedGen F).

(** With [enable_multi_pcg_breakage] the loop body computes the fragments
    and leaves every output untouched. *)
Lemma break_pcg_multi c acc i grain acc' :
  enable_multi_pcg_breakage self = true →
  break_pcg self c acc i grain = Some acc' → acc' = acc.
Proof.
  intros Hmulti Hrun. unfold break_pcg in Hrun.
  destruct acc as [[out mcg_temp] matrix], grain as [[[pcg prob] csize] chem].
  rewrite Hmulti in Hrun.
  repeat (match type of Hrun with
          | context [?o ≫= _] => destruct o; [cbn [mbind option_bind] in Hrun|done]
          end).
  by injection Hrun as <-.
Qed.

Lemma break_pcgs_multi c grains : ∀ acc i acc',
  enable_multi_pcg_breakage self = true →
  break_pcgs self c acc i grains = Some acc' → acc' = acc.
Proof.
  induction grains as [|grain grains IH]; intros acc i acc' Hmulti Hrun; cbn in Hrun.
  - by injection Hrun as <-.
  - destruct (break_pcg self c acc i grain) as [acc1|] eqn:Hstep; [cbn in Hrun|done].
    apply break_pcg_multi in Hstep as ->; [|done]. by eapply IH.
Qed.

Lemma mcg_temp_matrix_empty (T M : nat) :
  mcg_temp_matrix self (replicate T (replicate M []))
  = Some (replicate T (replicate M (replicate (Z.to_nat (n_bins self)) 0))).
Proof.
  unfold mcg_temp_matrix.
  assert (Hrow : mapM (mcg_temp_row self) (replicate M [])
                 = Some (replicate M (replicate (Z.to_nat (n_bins self)) 0))).
  { apply mapM_Some. induction M; constructor; done. }
  apply mapM_Some. induction T; constructor; done.
Qed.

End multi_breakage.

(** C2 (what the code does instead): with [enable_multi_pcg_breakage] every
    successful call of [inter_crystal_breakage] returns no pcg at all,
    leaves [interface_counts_matrix] as it was and adds only zeros to
    [mcg]: the fragments of [np.array_split] are dropped. *)
Theorem multi_pcg_breakage_drops_fragments `{Float64 F} (self : SedGen F)
    (old new : Pcgs F) (mcg mcg_new : list (list (list Z)))
    (interface_counts_matrix interface_counts_matrix' : list (list Z)) (c : list F) :
  enable_multi_pcg_breakage self = true →
  inter_crystal_breakage self old mcg interface_counts_matrix c
    = Some (new, mcg_new, interface_counts_matrix') →
  new = no_pcgs
  ∧ interface_counts_matrix' = interface_counts_matrix
  ∧ Np.iadd3 mcg
      (replicate (Z.to_nat (n_timesteps self))
         (replicate (Z.to_nat (n_minerals self))
            (replicate (Z.to_nat (n_bins self)) 0)))
    = Some mcg_new.
Proof.
  intros Hmulti Hrun. unfold inter_crystal_breakage in Hrun.
  destruct (break_pcgs _ _ _ _ _) as [[[out mcg_temp] matrix]|] eqn:Hloop;
    [cbn in Hrun|done].
  apply break_pcgs_multi in Hloop; [|done]. injection Hloop as -> -> ->.
  rewrite mcg_temp_matrix_empty in Hrun. cbn in Hrun.
  destruct (Np.iadd3 _ _) as [sum|]; [cbn in Hrun|done].
  by injection Hrun as <- <- <-.
Qed.

(** The failing input of C2, C4 and C5: one pcg of four quartz crystals,
    weights [0.5; 5; 1] and the draw [0.5].  The split index is [2], the
    code compares with the weight at position [2], finds position [1]
    stronger and splits off the first crystal; nothing of it is returned. *)
Lemma multi_pcg_breakage_drops_fragments_witness :
  Np.array_split [0; 0; 0; 0] [1] = [[0]; [0; 0; 0]]
  ∧ inter_crystal_breakage Demo.quartz_multi Demo.grain Demo.mcg
      Demo.interface_counts_matrix [(1 # 2)%Q]
    = Some (no_pcgs, Demo.mcg, Demo.interface_counts_matrix)
  ∧ (@no_pcgs Q = no_pcgs
     ∧ Demo.interface_counts_matrix = Demo.interface_counts_matrix
     ∧ Np.iadd3 Demo.mcg
         (replicate (Z.to_nat (n_timesteps Demo.quartz_multi))
            (replicate (Z.to_nat (n_minerals Demo.quartz_multi))
               (replicate (Z.to_nat (n_bins Demo.quartz_multi)) 0)))
       = Some Demo.mcg).
Proof.
  split; [reflexivity|]. split; [reflexivity|].
  apply (multi_pcg_breakage_drops_fragments Demo.quartz_multi Demo.grain no_pcgs
           Demo.mcg Demo.mcg Demo.interface_counts_matrix
           Demo.interface_counts_matrix [(1 # 2)%Q]); reflexivity.
Defined.

(** C4 at the failing input: before the call the matrix counts the three
    interfaces of the pcg; after it no pcg is left, but the matrix still
    counts three. *)
Lemma multi_pcg_breakage_interface_counts :
  interface_total Demo.interface_counts_matrix = pcg_interfaces (pcgs_new Demo.grain)
  ∧ ∃ new mcg_new interface_counts_matrix',
      inter_crystal_breakage Demo.quartz_multi Demo.grain Demo.mcg
        Demo.interface_counts_matrix [(1 # 2)%Q]
      = Some (new, mcg_new, interface_counts_matrix')
      ∧ interface_total interface_counts_matrix' = 3
      ∧ pcg_interfaces (pcgs_new new) = 0.
Proof. split; [reflexivity|]. by eexists _, _, _. Qed.

(** C5 at the failing input: [np.array_split] yields the single crystal
    [[0]] and the fragment [[0; 0; 0]]; the crystal is not added to [mcg]
    (three crystals before and after) and the fragment is not returned. *)
Lemma multi_pcg_breakage_single_crystal_lost :
  Np.array_split [0; 0; 0; 0] [1] = [[0]; [0; 0; 0]]
  ∧ ∃ new mcg_new interface_counts_matrix',
      inter_crystal_breakage Demo.quartz_multi Demo.grain Demo.mcg
        Demo.interface_counts_matrix [(1 # 2)%Q]
      = Some (new, mcg_new, interface_counts_matrix')
      ∧ mcg_total Demo.mcg = 3 ∧ mcg_total mcg_new = 3
      ∧ pcgs_new new = [].
Proof. split; [reflexivity|]. by eexists _, _, _. Qed.

(** ** One break per pcg: the invariants I2, I4 and I5 along
       [inter_crystal_breakage] *)

Section slices.
Context {A : Type}.
Implicit Types l : list A.

Lemma slice_prefix_length l k :
  0 <= k <= Z.of_nat (length l) →
  length (Np.slice l None (Some k)) = Z.to_nat k.
Proof.
  intros Hk. unfold Np.slice, Np.clamp. cbn [from_option].
  destruct (k <? 0) eqn:E; [lia|].
  rewrite length_take, length_drop. lia.
Qed.

Lemma slice_suffix_length l k :
  0 <= k <= Z.of_nat (length l) →
  length (Np.slice l (Some k) None) = (length l - Z.to_nat k)%nat.
Proof.
  intros Hk. unfold Np.slice, Np.clamp. cbn [from_option].
  destruct (k <? 0) eqn:E; [lia|].
  rewrite length_take, length_drop. lia.
Qed.

Lemma get_inv l i x :
  Np.get l i = Some x →
  ∃ k, Np.norm_index (Z.of_nat (length l)) i = Some k ∧ l !! k = Some x.
Proof.
  unfold Np.get. destruct (Np.norm_index _ i) as [k|]; [|done]. by exists k.
Qed.

Lemma set_inv l i y l' :
  Np.set l i y = Some l' →
  ∃ k, Np.norm_index (Z.of_nat (length l)) i = Some k ∧ l' = <[k := y]> l.
Proof.
  unfold Np.set. destruct (Np.norm_index _ i) as [k|]; [|done].
  intros [= <-]. by exists k.
Qed.

Lemma get_Some_lookup l i x :
  0 <= i → Np.get l i = Some x → l !! Z.to_nat i = Some x.
Proof.
  intros Hi. unfold Np.get, Np.norm_index.
  repeat case_match; cbn; intros; simplify_eq; try done; lia.
Qed.

Lemma get_lookup l (k : nat) x :
  l !! k = Some x → Np.get l (Z.of_nat k) = Some x.
Proof.
  intros Hk. pose proof (lookup_lt_Some _ _ _ Hk).
  unfold Np.get, Np.norm_index.
  replace (0 <=? Z.of_nat k) with true by (symmetry; apply Z.leb_le; lia).
  replace (Z.of_nat k <? Z.of_nat (length l)) with true
    by (symmetry; apply Z.ltb_lt; lia).
  cbn. by rewrite Nat2Z.id.
Qed.

End slices.

Section sums.

Lemma sum_cons x l : Np.sum (x :: l) = x + Np.sum l.
Proof. reflexivity. Qed.

Lemma sum_app l1 l2 : Np.sum (l1 ++ l2) = Np.sum l1 + Np.sum l2.
Proof.
  induction l1 as [|x l1 IH]; [done|].
  rewrite <- app_comm_cons, !sum_cons. lia.
Qed.

Lemma sum_insert l (k : nat) old v :
  l !! k = Some old → Np.sum (<[k := v]> l) = Np.sum l - old + v.
Proof.
  revert k.
  induction l as [|x l IH]; intros [|k] Hk; cbn in Hk; simplify_eq.
  - change (<[0%nat := v]> (old :: l)) with (v :: l). rewrite !sum_cons. lia.
  - change (<[S k := v]> (x :: l)) with (x :: <[k := v]> l).
    rewrite !sum_cons, (IH k) by done. lia.
Qed.

(** Changing one entry of a matrix changes a total over its entries by the
    change of that entry. *)
Lemma total_update2 {A} (μ : A → Z) (matrix : list (list A)) a b f matrix' :
  Np.update2 matrix a b f = Some matrix' →
  ∃ x, Np.get2 matrix a b = Some x
       ∧ interface_total ((λ row : list A, μ <$> row) <$> matrix')
         = interface_total ((λ row : list A, μ <$> row) <$> matrix) - μ x + μ (f x).
Proof.
  unfold Np.update2, Np.get2.
  destruct (Np.get matrix a) as [row|] eqn:Hrow; [cbn|done].
  destruct (Np.get row b) as [x|] eqn:Hx; [cbn|done].
  destruct (Np.set row b (f x)) as [row'|] eqn:Hrow'; [cbn|done].
  intros Hset. exists x. split; [done|].
  apply get_inv in Hrow as (i & Hi & Hrow), Hx as (j & Hj & Hx).
  apply set_inv in Hrow' as (j' & Hj' & ->), Hset as (i' & Hi' & ->).
  simplify_eq.
  unfold interface_total. rewrite !list_fmap_insert.
  rewrite (sum_insert _ _ (Np.sum (μ <$> row)))
    by (by rewrite !list_lookup_fmap, Hrow).
  rewrite (sum_insert _ _ (μ x)) by (by rewrite list_lookup_fmap, Hx). lia.
Qed.

Lemma interface_total_update2 matrix a b f matrix' :
  Np.update2 matrix a b f = Some matrix' →
  ∃ count, Np.get2 matrix a b = Some count
           ∧ interface_total matrix' = interface_total matrix - count + f count.
Proof.
  intros (x & Hx & Htotal)%(total_update2 id). exists x. split; [done|].
  assert (Hid : ∀ m : list (list Z), (λ row : list Z, id <$> row) <$> m = m).
  { intros m. rewrite <- (list_fmap_id m) at 2.
    apply list_fmap_ext. intros _ row _. apply list_fmap_id. }
  by rewrite !Hid in Htotal.
Qed.

Lemma mcg_temp_append_count mcg_temp a b x mcg_temp' :
  mcg_temp_append mcg_temp a b x = Some mcg_temp' →
  mcg_temp_count mcg_temp' = mcg_temp_count mcg_temp + 1.
Proof.
  unfold mcg_temp_append, mcg_temp_count.
  intros (l & _ & ->)%(total_update2 (λ l : list Z, Z.of_nat (length l))).
  rewrite length_app. cbn. lia.
Qed.

End sums.

Section single_breakage.
Context `{Float64 F} (self : SedGen F).

Lemma argmax_bool_range mask k :
  Np.argmax_bool mask = Some k → 0 <= k < Z.of_nat (length mask).
Proof.
  intros Hk.
  assert (Hne : (0 < length mask)%nat) by (destruct mask; [done|cbn; lia]).
  assert (Hfind : k = from_option (λ kb : nat * bool, Z.of_nat kb.1) 0
                        (list_find (eq true) mask)).
  { destruct mask; [done|]. by injection Hk. }
  subst k. destruct (list_find (eq true) mask) as [[i b']|] eqn:Hfind;
    cbn [from_option fst]; [|lia].
  apply list_find_Some in Hfind as (Hi & _).
  apply lookup_lt_Some in Hi. lia.
Qed.

Lemma cumsum_length {A} (add : A → A → A) (a : list A) :
  length (Np.cumsum add a) = length a.
Proof.
  destruct a as [|x a]; [done|]. cbn. f_equal.
  revert x. induction a as [|y a IH]; intros x; [done|]. cbn. by rewrite IH.
Qed.

(** The split index leaves at least one crystal on either side. *)
Lemma select_interface_range i probs c interface :
  select_interface i probs c = Some interface →
  1 <= interface <= Z.of_nat (length probs).
Proof.
  unfold select_interface.
  destruct (Np.get c i) as [c_i|]; [cbn|done].
  destruct (Np.argmax_bool _) as [k|] eqn:Hk; [cbn|done].
  intros [= <-]. apply argmax_bool_range in Hk.
  rewrite length_fmap, cumsum_length in Hk. lia.
Qed.

Lemma create_interface_location_prob_length {A} (a : list A) :
  (2 ≤ length a)%nat →
  S (length (create_interface_location_prob a)) = length a.
Proof.
  intros Hn. rewrite create_interface_location_prob_unfold by lia.
  rewrite length_app, arange_down_length, arange_up_length.
  pose proof (Z.div_mod (Z.of_nat (length a)) 2 ltac:(lia)).
  pose proof (Z.mod_pos_bound (Z.of_nat (length a)) 2 ltac:(lia)). lia.
Qed.

Lemma arange_up_lookup start stop (i : nat) :
  (i < Z.to_nat (stop - start))%nat →
  Np.arange_up start stop !! i = Some (start + Z.of_nat i).
Proof.
  intros Hi. unfold Np.arange_up.
  by rewrite list_lookup_fmap, lookup_seq_lt.
Qed.

(** A table hit returns what the formula would compute. *)
Lemma standard_prob_loc_cases_lookup n location_prob :
  1 <= n →
  Np.get (standard_prob_loc_cases self) (n - 1) = Some location_prob →
  location_prob = create_interface_location_prob (Np.arange_up 0 n).
Proof.
  intros Hn Hget. apply get_Some_lookup in Hget; [|lia].
  unfold standard_prob_loc_cases in Hget.
  rewrite list_lookup_fmap in Hget.
  destruct (Np.arange_up 1 _ !! _) as [x|] eqn:Hx; [|done].
  injection Hget as <-.
  pose proof (lookup_lt_Some _ _ _ Hx) as Hlt. rewrite arange_up_length in Hlt.
  rewrite arange_up_lookup in Hx by done. injection Hx as <-.
  do 2 f_equal. lia.
Qed.

(** The normalised weights of a well-formed grain: one per interface. *)
Lemma probability_normalized_length (pcg : list Z) (prob probability_normalized : list F) :
  (2 ≤ length pcg)%nat → S (length prob) = length pcg →
  (if enable_interface_location_prob self then
     location_prob ←
       (if Z.of_nat (length pcg) <=? n_standard_cases self
        then Np.get (standard_prob_loc_cases self) (Z.of_nat (length pcg) - 1)
        else Some (create_interface_location_prob pcg));
     calculate_normalized_probability location_prob prob
   else Some (normalize prob)) = Some probability_normalized →
  length probability_normalized = length prob.
Proof.
  intros Hn Hprob Hrun.
  destruct (enable_interface_location_prob self).
  - destruct (if Z.of_nat (length pcg) <=? _ then _ else _)
      as [location_prob|] eqn:Hloc; [cbn in Hrun|done].
    assert (Hlen : S (length location_prob) = length pcg).
    { destruct (Z.of_nat (length pcg) <=? _).
      - apply standard_prob_loc_cases_lookup in Hloc as ->; [|lia].
        rewrite create_interface_location_prob_length;
          rewrite arange_up_length; lia.
      - injection Hloc as <-. by apply create_interface_location_prob_length. }
    unfold calculate_normalized_probability, Np.broadcast2 in Hrun.
    rewrite decide_True in Hrun by lia. cbn in Hrun. injection Hrun as <-.
    rewrite length_fmap, length_zip_with. lia.
  - injection Hrun as <-. unfold normalize. by rewrite length_fmap.
Qed.

Lemma zip_pcgs_append (out : Pcgs F) pcg csize chem prob :
  pcgs_ok out →
  zip_pcgs (append_pcg out pcg csize chem prob)
  = zip_pcgs out ++ [(pcg, prob, csize, chem)].
Proof.
  intros (Hprob & Hcsize & Hchem & _). unfold zip_pcgs, append_pcg. cbn.
  rewrite (zip_with_app pair (pcgs_new out) [pcg]) by lia.
  rewrite (zip_with_app pair _ _ (crystal_size_array_new out) [csize])
    by (rewrite length_zip_with; lia).
  rewrite (zip_with_app pair _ _ (pcg_chem_weath_array_new out) [chem])
    by (rewrite !length_zip_with; lia).
  done.
Qed.

Lemma append_pcg_ok (out : Pcgs F) pcg csize chem prob :
  pcgs_ok out → grain_ok (pcg, prob, csize, chem) →
  pcgs_ok (append_pcg out pcg csize chem prob).
Proof.
  intros Hout Hgrain. pose proof Hout as (Hprob & Hcsize & Hchem & Hall).
  unfold pcgs_ok. rewrite zip_pcgs_append by done. cbn.
  rewrite !length_app. cbn. repeat split; try lia.
  apply Forall_app. split; [done|]. by constructor.
Qed.

Lemma pcg_interfaces_append pcgs pcg :
  pcg_interfaces (pcgs ++ [pcg]) = pcg_interfaces pcgs + (Z.of_nat (length pcg) - 1).
Proof.
  unfold pcg_interfaces. rewrite fmap_app, sum_app. cbn.
  rewrite sum_cons. change (Np.sum []) with 0. lia.
Qed.

Lemma pcg_interfaces_cons pcg pcgs :
  pcg_interfaces (pcg :: pcgs) = (Z.of_nat (length pcg) - 1) + pcg_interfaces pcgs.
Proof. unfold pcg_interfaces. by rewrite fmap_cons, sum_cons. Qed.

(** One turn of the breakage loop without [enable_multi_pcg_breakage]: the
    grains appended are well formed, a single crystal goes to [mcg_temp],
    and the matrix loses exactly one interface. *)
Lemma break_pcg_single c out mcg_temp matrix i pcg prob csize chem
    out' mcg_temp' matrix' :
  enable_multi_pcg_breakage self = false →
  grain_ok (pcg, prob, csize, chem) → pcgs_ok out →
  break_pcg self c (out, mcg_temp, matrix) i (pcg, prob, csize, chem)
    = Some (out', mcg_temp', matrix') →
  pcgs_ok out'
  ∧ interface_total matrix' = interface_total matrix - 1
  ∧ pcg_interfaces (pcgs_new out')
    = pcg_interfaces (pcgs_new out) + (Z.of_nat (length pcg) - 2)
  ∧ mcg_temp_count mcg_temp' + Z.of_nat (length (pcgs_new out'))
    = mcg_temp_count mcg_temp + Z.of_nat (length (pcgs_new out)) + 2.
Proof.
  intros Hmulti (Hn & Hprob & Hcsize & Hchem) Hout Hrun.
  unfold break_pcg in Hrun. cbv zeta in Hrun. rewrite Hmulti in Hrun.
  destruct (if enable_interface_location_prob self then _ else _)
    as [probability_normalized|] eqn:Hnorm; [|done].
  apply probability_normalized_length in Hnorm; [|done..].
  cbn [mbind option_bind] in Hrun.
  destruct (select_interface i probability_normalized c) as [interface|] eqn:Hsel;
    [cbn [mbind option_bind] in Hrun|done].
  apply select_interface_range in Hsel. rewrite Hnorm in Hsel.
  (* first new pcg *)
  set (first := if negb (interface =? 1) then _ else _) in Hrun.
  destruct first as [[out1 temp1]|] eqn:Hfirst; subst first;
    [cbn [mbind option_bind] in Hrun|done].
  assert (Hfirst_ok : pcgs_ok out1
    ∧ pcg_interfaces (pcgs_new out1)
      = pcg_interfaces (pcgs_new out) + (interface - 1)
    ∧ mcg_temp_count temp1 + Z.of_nat (length (pcgs_new out1))
      = mcg_temp_count mcg_temp + Z.of_nat (length (pcgs_new out)) + 1).
  { destruct (Z.eqb_spec interface 1) as [->|Hne]; cbn [negb] in Hfirst.
    - destruct (Np.get chem _) as [a|]; [cbn in Hfirst|done].
      destruct (Np.get pcg _) as [b|]; [cbn in Hfirst|done].
      destruct (Np.get csize _) as [x|]; [cbn in Hfirst|done].
      destruct (mcg_temp_append _ _ _ _) as [temp|] eqn:Happ; [cbn in Hfirst|done].
      injection Hfirst as <- <-. apply mcg_temp_append_count in Happ.
      split; [done|]. lia.
    - injection Hfirst as <- <-. split; [|split].
      + apply append_pcg_ok; [done|].
        unfold grain_ok. rewrite !slice_prefix_length by lia. lia.
      + cbn. rewrite pcg_interfaces_append, slice_prefix_length by lia. lia.
      + cbn. rewrite length_app. cbn. lia. }
  destruct Hfirst_ok as (Hout1 & Hint1 & Hcount1). clear Hfirst.
  (* second new pcg *)
  set (second := if negb (_ =? 1) then _ else _) in Hrun.
  destruct second as [[out2 temp2]|] eqn:Hsecond; subst second;
    [cbn [mbind option_bind] in Hrun|done].
  assert (Hsecond_ok : pcgs_ok out2
    ∧ pcg_interfaces (pcgs_new out2)
      = pcg_interfaces (pcgs_new out1) + (Z.of_nat (length pcg) - interface - 1)
    ∧ mcg_temp_count temp2 + Z.of_nat (length (pcgs_new out2))
      = mcg_temp_count temp1 + Z.of_nat (length (pcgs_new out1)) + 1).
  { destruct (Z.eqb_spec (Z.of_nat (length pcg) - interface) 1) as [Heq|Hne];
      cbn [negb] in Hsecond.
    - destruct (Np.get chem _) as [a|]; [cbn in Hsecond|done].
      destruct (Np.get pcg _) as [b|]; [cbn in Hsecond|done].
      destruct (Np.get csize _) as [x|]; [cbn in Hsecond|done].
      destruct (mcg_temp_append _ _ _ _) as [temp|] eqn:Happ; [cbn in Hsecond|done].
      injection Hsecond as <- <-. apply mcg_temp_append_count in Happ.
      split; [done|]. lia.
    - injection Hsecond as <- <-. split; [|split].
      + apply append_pcg_ok; [done|].
        unfold grain_ok. rewrite !slice_suffix_length by lia. lia.
      + cbn. rewrite pcg_interfaces_append, slice_suffix_length by lia. lia.
      + cbn. rewrite length_app. cbn. lia. }
  destruct Hsecond_ok as (Hout2 & Hint2 & Hcount2). clear Hsecond.
  (* the matrix *)
  destruct (Np.get pcg (interface - 1)) as [a|]; [cbn in Hrun|done].
  destruct (Np.get pcg interface) as [b|]; [cbn in Hrun|done].
  destruct (Np.update2 matrix a b _) as [matrix1|] eqn:Hupd; [cbn in Hrun|done].
  injection Hrun as <- <- <-.
  apply interface_total_update2 in Hupd as (count & _ & Htotal).
  split; [done|]. split; [lia|]. split; lia.
Qed.

(** The whole loop: the matrix total and the interfaces inside the grains
    go down together. *)
Lemma break_pcgs_single c grains : ∀ out mcg_temp matrix i out' mcg_temp' matrix',
  enable_multi_pcg_breakage self = false →
  Forall grain_ok grains → pcgs_ok out →
  break_pcgs self c (out, mcg_temp, matrix) i grains = Some (out', mcg_temp', matrix') →
  pcgs_ok out'
  ∧ interface_total matrix' - pcg_interfaces (pcgs_new out')
    = interface_total matrix - pcg_interfaces (pcgs_new out)
      - pcg_interfaces (fst ∘ fst ∘ fst <$> grains)
  ∧ mcg_temp_count mcg_temp' + Z.of_nat (length (pcgs_new out'))
    = mcg_temp_count mcg_temp + Z.of_nat (length (pcgs_new out))
      + 2 * Z.of_nat (length grains).
Proof.
  induction grains as [|[[[pcg prob] csize] chem] grains IH];
    intros out mcg_temp matrix i out' mcg_temp' matrix' Hmulti Hgrains Hout Hrun.
  - cbn in Hrun. injection Hrun as <- <- <-.
    split; [done|]. change (pcg_interfaces _) with 0 at 3. cbn [length]. lia.
  - apply Forall_cons in Hgrains as [Hgrain Hgrains].
    cbn [break_pcgs] in Hrun.
    destruct (break_pcg _ _ _ _ _) as [[[out1 temp1] matrix1]|] eqn:Hstep;
      [cbn [mbind option_bind] in Hrun|done].
    apply break_pcg_single in Hstep as (Hout1 & Hm1 & Hp1 & Hc1); [|done..].
    apply IH in Hrun as (Hout' & Hm' & Hc'); [|done..].
    split; [done|].
    rewrite fmap_cons, pcg_interfaces_cons.
    cbn [compose fst length]. lia.
Qed.

End single_breakage.

Section single_breakage_top.
Context `{Float64 F} (self : SedGen F).

Lemma zip_pcgs_pcgs (st : Pcgs F) :
  pcgs_ok st → fst ∘ fst ∘ fst <$> zip_pcgs st = pcgs_new st.
Proof.
  intros (Hprob & Hcsize & Hchem & _). unfold zip_pcgs.
  rewrite !list_fmap_compose.
  rewrite !fst_zip; [done|rewrite ?length_zip_with; lia..].
Qed.

Lemma zip_pcgs_length (st : Pcgs F) :
  pcgs_ok st → length (zip_pcgs st) = length (pcgs_new st).
Proof.
  intros (Hprob & Hcsize & Hchem & _). unfold zip_pcgs.
  rewrite !length_zip_with. lia.
Qed.

Lemma no_pcgs_ok : pcgs_ok (@no_pcgs F).
Proof. repeat split. constructor. Qed.

Lemma mcg_temp_count_empty (T M : nat) :
  mcg_temp_count (replicate T (replicate M [])) = 0.
Proof.
  unfold mcg_temp_count, interface_total.
  assert (Hrow : Np.sum ((λ l : list Z, Z.of_nat (length l)) <$> replicate M []) = 0).
  { induction M as [|M IH]; [done|]. cbn. by rewrite sum_cons, IH. }
  induction T as [|T IH]; [done|]. cbn. by rewrite sum_cons, Hrow, IH.
Qed.

(** Without [enable_multi_pcg_breakage], [inter_crystal_breakage] keeps the
    grains well formed (I4, I5), keeps the matrix total in step with the
    interfaces inside the grains (I2), and hands every crystal that falls
    off a grain to [mcg_temp], from where it is counted into [mcg]. *)
Lemma inter_crystal_breakage_single old mcg matrix c new mcg_new matrix' :
  enable_multi_pcg_breakage self = false →
  pcgs_ok old →
  inter_crystal_breakage self old mcg matrix c = Some (new, mcg_new, matrix') →
  pcgs_ok new
  ∧ interface_total matrix' - pcg_interfaces (pcgs_new new)
    = interface_total matrix - pcg_interfaces (pcgs_new old)
  ∧ ∃ mcg_temp temp_matrix,
      mcg_temp_count mcg_temp
      = 2 * Z.of_nat (length (pcgs_new old)) - Z.of_nat (length (pcgs_new new))
      ∧ mcg_temp_matrix self mcg_temp = Some temp_matrix
      ∧ Np.iadd3 mcg temp_matrix = Some mcg_new.
Proof.
  intros Hmulti Hold Hrun. unfold inter_crystal_breakage in Hrun.
  destruct (break_pcgs _ _ _ _ _) as [[[out mcg_temp] matrix1]|] eqn:Hloop;
    [cbn in Hrun|done].
  destruct (mcg_temp_matrix self mcg_temp) as [temp_matrix|] eqn:Htemp;
    [cbn in Hrun|done].
  destruct (Np.iadd3 mcg temp_matrix) as [sum|] eqn:Hsum; [cbn in Hrun|done].
  injection Hrun as <- <- <-.
  apply break_pcgs_single in Hloop as (Hout & Htotal & Hcount);
    [|done|apply Hold|apply no_pcgs_ok].
  rewrite zip_pcgs_pcgs, zip_pcgs_length in * by done.
  rewrite mcg_temp_count_empty in Hcount.
  change (pcg_interfaces (pcgs_new no_pcgs)) with 0 in Htotal.
  change (length (pcgs_new no_pcgs)) with 0%nat in Hcount.
  split; [done|]. split; [lia|].
  exists mcg_temp, temp_matrix. split; [lia|done].
Qed.

End single_breakage_top.

(** ** Correction of the interface array (claim C3) *)

Section correction_facts.
Context {F : Type} (self : SedGen F).

Lemma get_out_of_range {A} (l : list A) i :
  Z.of_nat (length l) <= i → Np.get l i = None.
Proof.
  intros Hi. unfold Np.get, Np.norm_index.
  replace (i <? Z.of_nat (length l)) with false by (symmetry; apply Z.ltb_ge; lia).
  replace (i <? 0) with false by (symmetry; apply Z.ltb_ge; lia).
  by rewrite !andb_false_r.
Qed.

(** The loop visits the indices [index, index + 1, ...] of [diff]; it raises
    as soon as one of them is not an index of [self.minerals]. *)
Lemma correct_minerals_too_few_names diff : ∀ acc index,
  0 <= index <= Z.of_nat (length (minerals self)) →
  Z.of_nat (length (minerals self)) < index + Z.of_nat (length diff) →
  correct_minerals self acc index diff = None.
Proof.
  induction diff as [|item diff IH]; intros acc index Hindex Hlen;
    cbn [correct_minerals length] in *.
  - lia.
  - destruct (correct_mineral self acc index item) as [acc'|] eqn:Hstep; [cbn|done].
    destruct (decide (Z.of_nat (length (minerals self)) <= index)) as [Hout|Hin].
    + unfold correct_mineral in Hstep. destruct acc.
      rewrite (get_out_of_range (minerals self) index) in Hstep by lia. done.
    + apply IH; lia.
Qed.

End correction_facts.

(** C3 (what the code does instead): the drift is computed for [range(6)],
    whatever the number of minerals.  With any other number of minerals than
    six [perform_interface_array_correction] raises: the six counts do not
    broadcast against [minerals_N], or, for a single mineral, the loop reaches
    [self.minerals[1]]. *)
Theorem perform_interface_array_correction_six_only {F} (self : SedGen F)
    (interface_array : list Z) (interface_counts_matrix : list (list Z)) :
  length (minerals_N self) = length (minerals self) →
  length (minerals self) ≠ 6%nat →
  perform_interface_array_correction self interface_array interface_counts_matrix
  = None.
Proof.
  intros HN Hsix. unfold perform_interface_array_correction.
  destruct (Np.broadcast2 _ _ _) as [diff|] eqn:Hdiff; [cbn|done].
  unfold Np.broadcast2 in Hdiff.
  change (Np.arange_up 0 6) with [0; 1; 2; 3; 4; 5] in Hdiff.
  case_decide as Hlen; [cbn in Hlen; lia|].
  cbn [fmap list_fmap] in Hdiff.
  destruct (minerals_N self) as [|N [|N' Ns]] eqn:HNs; [done| |done].
  injection Hdiff as <-.
  apply correct_minerals_too_few_names; rewrite <- HN; cbn; lia.
Qed.

Lemma perform_interface_array_correction_six_only_witness :
  perform_interface_array_correction Demo.two_minerals [0; 1; 0] [[0; 1]; [1; 0]]
  = None.
Proof.
  apply (perform_interface_array_correction_six_only Demo.two_minerals);
    [reflexivity|cbn; lia].
Defined.

(** ** [weathering] on a copy of the instance (claim C10) *)

Section shallow_copy.
Context {F : Type}.

(** [copy.copy] allocates a new instance and hands it the dictionary of the
    old one: both hold the same reference under every attribute name. *)
Lemma copy_copy_shallow (h : gmap loc (object F)) self model dict :
  h !! self = Some (Instance model dict) →
  ∃ copy, Py.copy_copy self h = Some (copy, <[copy := Instance model dict]> h)
          ∧ h !! copy = None.
Proof.
  intros Hself. exists (fresh (dom h)). split.
  - unfold Py.copy_copy, Py.bind, Py.load. by rewrite Hself.
  - apply not_elem_of_dom, is_fresh.
Qed.

Lemma copy_copy_attribute_ref (h h' : gmap loc (object F)) self copy name :
  Py.copy_copy self h = Some (copy, h') →
  attribute_ref h' copy name = attribute_ref h self name
  ∧ attribute_ref h' self name = attribute_ref h self name.
Proof.
  unfold Py.copy_copy, Py.bind, Py.load, Py.new, Py.lift.
  destruct (h !! self) as [[]|] eqn:Hself; cbn; try done.
  intros [= <- <-].
  assert (Hne : fresh (dom h) ≠ self).
  { intros Heq. apply (is_fresh (dom h)). rewrite Heq. by apply elem_of_dom. }
  unfold attribute_ref.
  by rewrite lookup_insert_eq, lookup_insert_ne, Hself.
Qed.

End shallow_copy.

(** C10: [weathering(inplace=False)] on the quartz instance, one timestep
    with the four default operations.  The run works on a shallow copy: the
    original instance keeps its attribute table, and the attributes that the
    run rebinds ([mcg], [pcgs_new]) keep their old values there.  The arrays
    that the run changes in place are the very objects the original refers
    to: its [interface_counts_matrix], [residue], [residue_count] and log
    arrays hold other contents after the run than before. *)
Theorem weathering_copy_mutates_original :
  ∃ copy final,
    weathering Demo.random_state Demo.self Demo.operations (Some 1) false Demo.store
      = Some (Returned_self copy, final)
    ∧ copy ≠ Demo.self
    ∧ final !! Demo.self = Demo.store !! Demo.self
    (* the copy and the original share the arrays *)
    ∧ Forall (λ name, attribute_ref final copy name = attribute_ref final Demo.self name)
        ["interface_counts_matrix"; "residue"; "residue_count"; "pcg_additions";
         "mcg_additions"; "mcg_broken_additions"; "residue_additions";
         "residue_count_additions"; "mcg_chem_residue_additions"; "mcg_evolution";
         "pcg_comp_evolution"; "pcg_size_evolution"]%string
    (* what the original instance sees before and after the run *)
    ∧ attribute_value Demo.store Demo.self "interface_counts_matrix" = Some (Int2 [[3]])
    ∧ attribute_value final Demo.self "interface_counts_matrix" = Some (Int2 [[2]])
    ∧ attribute_value Demo.store Demo.self "residue" = Some (Float2 [[0]; [0]]%Q)
    ∧ attribute_value final Demo.self "residue" = Some (Float2 [[3 # 10]; [0]]%Q)
    ∧ attribute_value Demo.store Demo.self "residue_count" = Some (Int2 [[9]; [9]])
    ∧ attribute_value final Demo.self "residue_count" = Some (Int2 [[0]; [9]])
    ∧ attribute_value Demo.store Demo.self "pcg_additions" = Some (Int1 [0; 0])
    ∧ attribute_value final Demo.self "pcg_additions" = Some (Int1 [2; 0])
    ∧ attribute_value Demo.store Demo.self "mcg_additions" = Some (Int1 [0; 0])
    ∧ attribute_value final Demo.self "mcg_additions" = Some (Int1 [5; 0])
    ∧ attribute_value Demo.store Demo.self "mcg_evolution"
      = Some (Int3 [[replicate 8 0]; [replicate 8 0]])
    ∧ attribute_value final Demo.self "mcg_evolution"
      = Some (Int3 [[[0; 0; 0; 1; 0; 2; 1; 1]]; [replicate 8 0]])
    ∧ attribute_value Demo.store Demo.self "pcg_comp_evolution" = Some (Refs [])
    ∧ (∃ l, attribute_value final Demo.self "pcg_comp_evolution" = Some (Refs [l])
            ∧ attribute_ref final copy "pcgs_new" = Some l)
    (* rebound attributes: the original keeps the old objects *)
    ∧ attribute_value final Demo.self "mcg" = Some (Int3 Demo.mcg)
    ∧ attribute_value final Demo.self "pcgs_new" = Some (Arrays [[0; 0; 0; 0]])
    ∧ attribute_value final copy "pcgs_new" = Some (Arrays [[0; 0]; [0; 0]]).
Proof.
  exists 22%nat, Demo.final_store.
  split; [vm_compute; reflexivity|].
  split; [discriminate|].
  split; [vm_compute; reflexivity|].
  split; [repeat (constructor; [vm_compute; reflexivity|]); constructor|].
  repeat (split; [vm_compute; reflexivity|]).
  split; [exists 24%nat; split; vm_compute; reflexivity|].
  repeat split; vm_compute; reflexivity.
Qed.

(** ** The correction with six minerals *)

Section correction_counts.
Context {F : Type} (self : SedGen F).

Lemma count_eq_app x a b :
  Np.count_eq x (a ++ b) = Np.count_eq x a + Np.count_eq x b.
Proof. unfold Np.count_eq. rewrite filter_app, length_app. lia. Qed.

Lemma count_eq_singleton x y :
  Np.count_eq x [y] = if decide (y = x) then 1 else 0.
Proof.
  unfold Np.count_eq. destruct (decide (y = x)) as [Heq|Hne].
  - by rewrite filter_cons_True.
  - by rewrite filter_cons_False.
Qed.

Lemma count_eq_replicate x y (n : nat) :
  Np.count_eq x (replicate n y) = if decide (y = x) then Z.of_nat n else 0.
Proof.
  induction n as [|n IH]; [by destruct (decide _)|].
  change (replicate (S n) y) with ([y] ++ replicate n y).
  rewrite count_eq_app, count_eq_singleton, IH.
  destruct (decide (y = x)); lia.
Qed.

(** [np.where(mask)[0]] lists positions that hold [True]. *)
Lemma elem_of_where_true mask i :
  i ∈ Np.where_true mask → ∃ k : nat, i = Z.of_nat k ∧ mask !! k = Some true.
Proof.
  unfold Np.where_true.
  intros ([k b] & -> & Hin)%list_elem_of_fmap.
  apply list_elem_of_filter in Hin as [Hb Hin]. cbn in Hb. subst b.
  apply elem_of_lookup_imap_1 in Hin as (k' & b & [= -> ->] & Hk).
  by exists k'.
Qed.

(** Deleting the crystal at [i] lowers the count of its mineral by one. *)
Lemma count_eq_delete x a (k : nat) y :
  a !! k = Some y →
  Np.count_eq x (Np.delete a (Z.of_nat k))
  = Np.count_eq x a - (if decide (y = x) then 1 else 0).
Proof.
  intros Hk. unfold Np.delete. rewrite Nat2Z.id.
  rewrite <- (take_drop_middle a k y Hk) at 3.
  rewrite !count_eq_app. change (y :: drop (S k) a) with ([y] ++ drop (S k) a).
  rewrite count_eq_app, count_eq_singleton. lia.
Qed.

Lemma remove_last_crystal_counts index arr freq arr' freq' x :
  remove_last_crystal index (arr, freq) = Some (arr', freq') →
  Np.count_eq x arr' = Np.count_eq x arr - (if decide (index = x) then 1 else 0).
Proof.
  unfold remove_last_crystal.
  destruct (Np.get _ (-1)) as [corr_index|] eqn:Hlast; [cbn|done].
  intros [= <- _].
  rewrite get_last in Hlast. apply last_Some_elem_of in Hlast.
  apply elem_of_where_true in Hlast as (k & -> & Hk).
  rewrite list_lookup_fmap in Hk.
  destruct (arr !! k) as [y|] eqn:Hy; [|done].
  injection Hk as Hk. apply bool_decide_eq_true in Hk as ->.
  by apply count_eq_delete.
Qed.

Lemma repeat_remove_counts index (n : nat) : ∀ arr freq arr' freq' x,
  Np.repeat_n n (remove_last_crystal index) (arr, freq) = Some (arr', freq') →
  Np.count_eq x arr'
  = Np.count_eq x arr - (if decide (index = x) then Z.of_nat n else 0).
Proof.
  induction n as [|n IH]; intros arr freq arr' freq' x Hrun;
    cbn [Np.repeat_n] in Hrun.
  - injection Hrun as <- _. destruct (decide _); lia.
  - destruct (remove_last_crystal index (arr, freq)) as [[arr1 freq1]|] eqn:Hstep;
      [cbn [mbind option_bind] in Hrun|done].
    apply (remove_last_crystal_counts _ _ _ _ _ x) in Hstep.
    apply (IH _ _ _ _ x) in Hrun. destruct (decide (index = x)); lia.
Qed.

(** One mineral of the loop: its count moves by [item], the others stay. *)
Lemma correct_mineral_counts arr freq index item arr' freq' x :
  correct_mineral self (arr, freq) index item = Some (arr', freq') →
  Np.count_eq x arr'
  = Np.count_eq x arr - (if decide (index = x) then item else 0).
Proof.
  unfold correct_mineral.
  destruct (Np.get (minerals self) index) as [name|]; [cbn|done].
  destruct (0 <? item) eqn:Hpos.
  - intros Hrun. apply (repeat_remove_counts _ _ _ _ _ _ x) in Hrun.
    apply Z.ltb_lt in Hpos. destruct (decide _); lia.
  - destruct (item <? 0) eqn:Hneg.
    + destruct (Np.get arr (-1)) as [last|]; [cbn|done].
      destruct (Np.update2 freq last index _) as [freq1|]; [cbn|done].
      destruct (Np.update2 freq1 index index _) as [freq2|]; [cbn|done].
      intros [= <- _]. rewrite count_eq_app, count_eq_replicate.
      apply Z.ltb_lt in Hneg. destruct (decide _); lia.
    + intros [= <- _]. apply Z.ltb_ge in Hpos, Hneg.
      destruct (decide _); lia.
Qed.

Lemma correct_minerals_counts diff : ∀ arr freq index arr' freq' x,
  correct_minerals self (arr, freq) index diff = Some (arr', freq') →
  Np.count_eq x arr'
  = Np.count_eq x arr
    - (if decide (index <= x < index + Z.of_nat (length diff))
       then default 0 (diff !! Z.to_nat (x - index)) else 0).
Proof.
  induction diff as [|item diff IH]; intros arr freq index arr' freq' x Hrun;
    cbn [correct_minerals] in Hrun.
  - injection Hrun as <- _. cbn. destruct (decide _); lia.
  - destruct (correct_mineral self (arr, freq) index item) as [[arr1 freq1]|] eqn:Hstep;
      [cbn in Hrun|done].
    apply (correct_mineral_counts _ _ _ _ _ _ x) in Hstep.
    apply (IH _ _ _ _ _ x) in Hrun. rewrite Hrun, Hstep. cbn [length].
    destruct (decide (index = x)) as [->|Hne].
    + rewrite decide_False by lia. rewrite decide_True by lia.
      replace (Z.to_nat (x - x)) with 0%nat by lia.
      change ((item :: diff) !! 0%nat) with (Some item). cbn [from_option id]. lia.
    + destruct (decide (index + 1 <= x < index + 1 + Z.of_nat (length diff)))
        as [Hin|Hout].
      * rewrite decide_True by lia.
        replace (Z.to_nat (x - index)) with (S (Z.to_nat (x - (index + 1)))) by lia.
        change ((item :: diff) !! S (Z.to_nat (x - (index + 1))))
          with (diff !! Z.to_nat (x - (index + 1))).
        lia.
      * rewrite decide_False by lia. lia.
Qed.

(** With six minerals the correction, when it returns, leaves every mineral
    with exactly [minerals_N[m]] crystals. *)
Lemma perform_interface_array_correction_six
    interface_array interface_counts_matrix arr' freq' (m : nat) N :
  length (minerals_N self) = 6%nat →
  perform_interface_array_correction self interface_array interface_counts_matrix
    = Some (arr', freq') →
  minerals_N self !! m = Some N →
  Np.count_eq (Z.of_nat m) arr' = N.
Proof.
  intros Hsix Hrun HN. unfold perform_interface_array_correction in Hrun.
  destruct (Np.broadcast2 _ _ _) as [diff|] eqn:Hdiff;
    [cbn [mbind option_bind] in Hrun|done].
  unfold Np.broadcast2 in Hdiff.
  rewrite decide_True in Hdiff by (by rewrite length_fmap, arange_up_length, Hsix).
  apply (inj Some) in Hdiff. subst diff.
  apply (correct_minerals_counts _ _ _ _ _ _ (Z.of_nat m)) in Hrun.
  pose proof (lookup_lt_Some _ _ _ HN) as Hm.
  rewrite length_zip_with, length_fmap, arange_up_length, Hsix in Hrun.
  rewrite decide_True in Hrun by lia.
  replace (Z.to_nat (Z.of_nat m - 0)) with m in Hrun by lia.
  rewrite lookup_zip_with, list_lookup_fmap, arange_up_lookup, HN in Hrun by lia.
  cbn [fmap option_fmap option_map mbind option_bind from_option id] in Hrun.
  rewrite Z.add_0_l in Hrun. lia.
Qed.

End correction_counts.

(** The six-mineral example: one quartz too many, one crystal of the sixth
    mineral too few; the corrected array has the counts of [minerals_N]. *)
Example six_minerals_corrected :
  perform_interface_array_correction Demo.six_minerals Demo.six_array Demo.six_counts
  = Some ([0; 1; 0; 2; 3; 4; 5; 5],
          [[0; 1; 1; 0; 0; 0]; [1; 0; 0; 0; 0; 0]; [0; 0; 0; 1; 0; 0];
           [0; 0; 0; 0; 1; 0]; [0; 0; 0; 0; 0; 1]; [0; 0; 0; 0; 0; 1]]).
Proof. reflexivity. Qed.

(** ** Splitting at cumulative lengths *)

Section chunks.
Context {A : Type}.
Implicit Types a : list A.
Implicit Types lens : list Z.

Lemma slice_init {B} (l : list B) :
  Np.slice l None (Some (-1)) = take (length l - 1) l.
Proof.
  unfold Np.slice, Np.clamp. cbn [from_option].
  change (-1 <? 0) with true. cbv iota.
  rewrite drop_0. f_equal. lia.
Qed.

Lemma slice_range a st en :
  0 <= st → st <= en → en <= Z.of_nat (length a) →
  Np.slice a (Some st) (Some en)
  = take (Z.to_nat (en - st)) (drop (Z.to_nat st) a).
Proof.
  intros Hst Hle Hen. unfold Np.slice, Np.clamp. cbn [from_option].
  replace (st <? 0) with false by (symmetry; apply Z.ltb_ge; lia).
  replace (en <? 0) with false by (symmetry; apply Z.ltb_ge; lia).
  by rewrite !Z.min_l by lia.
Qed.

Lemma cumsum_cumsum_from lens : Np.cumsum Z.add lens = Np.cumsum_from Z.add 0 lens.
Proof. by destruct lens. Qed.

Lemma cumsum_from_length acc lens :
  length (Np.cumsum_from Z.add acc lens) = length lens.
Proof. revert acc. induction lens as [|n lens IH]; intros acc; cbn; [done|]. by rewrite IH. Qed.

Lemma cumsum_from_take acc lens (k : nat) :
  take k (Np.cumsum_from Z.add acc lens) = Np.cumsum_from Z.add acc (take k lens).
Proof.
  revert acc k. induction lens as [|n lens IH]; intros acc [|k]; cbn; try done.
  by rewrite IH.
Qed.

Lemma cumsum_from_snoc acc lens n :
  Np.cumsum_from Z.add acc (lens ++ [n])
  = Np.cumsum_from Z.add acc lens ++ [acc + Np.sum lens + n].
Proof.
  revert acc. induction lens as [|m lens IH]; intros acc; cbn.
  - change (Np.sum []) with 0. do 2 f_equal. lia.
  - rewrite IH, sum_cons. do 3 f_equal. lia.
Qed.

(** The partial sums without the last one, followed by the total, are all
    the partial sums. *)
Lemma cumsum_from_init acc lens :
  lens ≠ [] →
  take (length lens - 1) (Np.cumsum_from Z.add acc lens) ++ [acc + Np.sum lens]
  = Np.cumsum_from Z.add acc lens.
Proof.
  intros Hne. destruct lens as [|n lens _] using rev_ind; [done|].
  rewrite cumsum_from_snoc, length_app. cbn [length].
  rewrite take_app_length' by (rewrite cumsum_from_length; lia).
  rewrite sum_app, sum_cons. change (Np.sum []) with 0. do 2 f_equal. lia.
Qed.

Lemma cumsum_from_bounds acc lens x :
  Forall (Z.le 0) lens → x ∈ Np.cumsum_from Z.add acc lens →
  acc <= x <= acc + Np.sum lens.
Proof.
  intros Hpos. revert acc. induction Hpos as [|n lens Hn Hpos IH]; intros acc Hx; cbn in Hx.
  - by apply elem_of_nil in Hx.
  - rewrite sum_cons. pose proof (Np.sum lens) as _.
    assert (0 <= Np.sum lens).
    { clear -Hpos. induction Hpos as [|m l Hm _ IHl]; [done|]. rewrite sum_cons. lia. }
    apply elem_of_cons in Hx as [->|Hx]; [lia|].
    apply IH in Hx. lia.
Qed.

Lemma sum_nonneg lens : Forall (Z.le 0) lens → 0 <= Np.sum lens.
Proof. induction 1 as [|m l Hm _ IHl]; [done|]. rewrite sum_cons. lia. Qed.

Lemma zip_with_cons_step {B C D} (f : B → C → D) x l y k :
  zip_with f (x :: l) (y :: k) = f x y :: zip_with f l k.
Proof. reflexivity. Qed.

(** Cutting [a] at the partial sums of [lens] gives the pieces of these
    lengths. *)
Lemma split_at_partial_sums a lens : ∀ off,
  Forall (Z.le 0) lens → 0 <= off →
  off + Np.sum lens <= Z.of_nat (length a) →
  zip_with (λ st en, Np.slice a (Some st) (Some en))
    (off :: Np.cumsum_from Z.add off lens) (Np.cumsum_from Z.add off lens)
  = chunks lens (drop (Z.to_nat off) a).
Proof.
  induction lens as [|n lens IH]; intros off Hpos Hoff Hlen; [done|].
  apply Forall_cons in Hpos as [Hn Hpos]. rewrite sum_cons in Hlen.
  pose proof (sum_nonneg _ Hpos).
  change (Np.cumsum_from Z.add off (n :: lens))
    with ((off + n) :: Np.cumsum_from Z.add (off + n) lens).
  change (chunks (n :: lens) (drop (Z.to_nat off) a))
    with (take (Z.to_nat n) (drop (Z.to_nat off) a)
          :: chunks lens (drop (Z.to_nat n) (drop (Z.to_nat off) a))).
  rewrite zip_with_cons_step, IH by (done || lia).
  rewrite slice_range by lia.
  rewrite drop_drop. do 3 f_equal; lia.
Qed.

Lemma array_split_chunks a lens :
  lens ≠ [] → Forall (Z.le 0) lens → Np.sum lens = Z.of_nat (length a) →
  Np.array_split a (Np.slice (Np.cumsum Z.add lens) None (Some (-1)))
  = chunks lens a.
Proof.
  intros Hne Hpos Hsum. unfold Np.array_split.
  rewrite slice_init, cumsum_cumsum_from, cumsum_from_length.
  cbn [tail]. rewrite <- Hsum.
  rewrite <- (Z.add_0_l (Np.sum lens)), cumsum_from_init by done.
  rewrite split_at_partial_sums by (done || lia). done.
Qed.

(** The same when the last length is dropped before the sums are taken. *)
Lemma array_split_chunks' a lens :
  lens ≠ [] → Forall (Z.le 0) lens → Np.sum lens = Z.of_nat (length a) →
  Np.array_split a (Np.cumsum Z.add (Np.slice lens None (Some (-1))))
  = chunks lens a.
Proof.
  intros Hne Hpos Hsum. rewrite <- (array_split_chunks a lens) by done.
  by rewrite !slice_init, !cumsum_cumsum_from, cumsum_from_take, cumsum_from_length.
Qed.

Lemma chunks_length lens a : length (chunks lens a) = length lens.
Proof. revert a. induction lens as [|n lens IH]; intros a; cbn; [done|]. by rewrite IH. Qed.

Lemma chunks_concat lens a :
  Forall (Z.le 0) lens → Np.sum lens = Z.of_nat (length a) →
  concat (chunks lens a) = a.
Proof.
  intros Hpos. revert a. induction Hpos as [|n lens Hn Hpos IH]; intros a Hsum.
  - change (Np.sum []) with 0 in Hsum. by destruct a.
  - rewrite sum_cons in Hsum. pose proof (sum_nonneg _ Hpos).
    cbn. rewrite IH by (rewrite length_drop; lia). apply take_drop.
Qed.

End chunks.

(** ** Witnesses for the single-break lemmas *)

Lemma demo_grain_ok : pcgs_ok Demo.grain.
Proof.
  repeat split; try reflexivity.
  repeat constructor; cbn; lia.
Qed.

Lemma inter_crystal_breakage_single_witness :
  pcgs_ok {| pcgs_new := [[0; 0]; [0; 0]];
             crystal_size_array_new := [[7; 6]; [5; 7]];
             interface_constant_prob_new := [[1 # 2]; [1]]%Q;
             pcg_chem_weath_array_new := [[0; 0]; [0; 0]] |}
  ∧ interface_total [[2]] - pcg_interfaces [[0; 0]; [0; 0]]
    = interface_total Demo.interface_counts_matrix
      - pcg_interfaces (pcgs_new Demo.grain)
  ∧ ∃ mcg_temp temp_matrix,
      mcg_temp_count mcg_temp = 2 * Z.of_nat 1 - Z.of_nat 2
      ∧ mcg_temp_matrix Demo.quartz mcg_temp = Some temp_matrix
      ∧ Np.iadd3 Demo.mcg temp_matrix = Some Demo.mcg.
Proof.
  apply (inter_crystal_breakage_single Demo.quartz Demo.grain Demo.mcg
           Demo.interface_counts_matrix [(1 # 2)%Q]
           {| pcgs_new := [[0; 0]; [0; 0]];
              crystal_size_array_new := [[7; 6]; [5; 7]];
              interface_constant_prob_new := [[1 # 2]; [1]]%Q;
              pcg_chem_weath_array_new := [[0; 0]; [0; 0]] |}
           Demo.mcg [[2]]).
  - reflexivity.
  - repeat split; try reflexivity. repeat constructor; cbn; lia.
  - reflexivity.
Defined.

Lemma perform_interface_array_correction_six_witness :
  Np.count_eq (Z.of_nat 5) [0; 1; 0; 2; 3; 4; 5; 5] = 2.
Proof.
  apply (perform_interface_array_correction_six Demo.six_minerals
           Demo.six_array Demo.six_counts [0; 1; 0; 2; 3; 4; 5; 5]
           [[0; 1; 1; 0; 0; 0]; [1; 0; 0; 0; 0; 0]; [0; 0; 0; 1; 0; 0];
            [0; 0; 0; 0; 1; 0]; [0; 0; 0; 0; 0; 1]; [0; 0; 0; 0; 0; 1]]
           5%nat 2); reflexivity.
Defined.

(** ** The split index of [select_interface] *)

(** Whatever the weights and the draw, the index that [select_interface]
    returns lies between [1] and the number of interfaces: a split leaves a
    crystal on either side.  (A draw above every cumulative weight selects
    the first interface.) *)
Theorem select_interface_inside `{Float64 F} (i : Z) (probs c : list F)
    (interface : Z) :
  select_interface i probs c = Some interface →
  1 <= interface <= Z.of_nat (length probs).
Proof. apply select_interface_range. Qed.

Lemma select_interface_inside_witness :
  1 <= 1 <= Z.of_nat (length [1 # 4; 1 # 4; 1 # 2]%Q).
Proof.
  apply (select_interface_inside 0 [1 # 4; 1 # 4; 1 # 2]%Q [2%Q] 1).
  reflexivity.
Defined.
